(** * run_benchmarks.py: the benchmark harness, embedded and verified

    The script drives the engine over every benchmark algorithm, mines the
    engine's log for throughput and duration samples, averages them and
    dumps one JSON table.  The embedding follows the script line by line.

    - Strings are [string] (file names, paths, command arguments) and
      [list ascii] (log text handed to the regular-expression engine).
      Text is 8-bit: on these characters [\d] is 0-9.  [int] has no bound
      on the number of digits.
    - [re.findall] is a backtracking matcher over the two shapes of
      pattern the script uses: literal characters and the greedy captured
      group [(\d+)].
    - [statistics.mean] works on exact fractions, as the library does.  A
      mean that is not integral is a Python float; it is carried here as
      the rational the float rounds, so rounding and overflow of doubles
      are outside the model.
    - The file system, the engine subprocess and the global [file] are
      explicit state, and every effect is logged in a trace.  Exceptions
      propagate, because the script has no [try].  The engine is a
      parameter: any function on file systems.
    - A file object is closed when its last reference goes (CPython); the
      script itself closes only the output file, by [with].
    - Dictionaries are association lists in insertion order; the text
      [json.dump] writes is carried as the document tree.
    - Paths are POSIX paths.  Console output ([print]) is not modelled. *)

From Stdlib Require Import List Ascii String ZArith QArith Lia Bool Arith.
From Stdlib Require Import Permutation Sorted Orders Mergesort.
Import ListNotations.

Local Open Scope string_scope.
Local Open Scope list_scope.

(* ------------------------------------------------------------------ *)
(** ** Python string operations used by the script *)

Module PyStr.

(** [s[a:b]] for [0 <= a], [0 <= b]. *)
Definition slice (a b : nat) (s : string) : string :=
  substring a (b - a) s.

(** [s.index(sub)]: [None] stands for [ValueError]. *)
Definition index (sub s : string) : option nat :=
  String.index 0 sub s.

(** [s.endswith(suffix)]. *)
Definition endswith (s suffix : string) : bool :=
  let n := String.length s in
  let m := String.length suffix in
  (m <=? n)%nat && (substring (n - m) m s =? suffix).

(** [s.endswith((t1, t2, ...))]: true when one of the suffixes matches. *)
Definition endswith_any (s : string) (suffixes : list string) : bool :=
  existsb (endswith s) suffixes.

(** [s.startswith(prefix)]. *)
Definition startswith (s pre : string) : bool := prefix pre s.

(** [s.rfind(".")]: position of the last dot, [None] for [-1]. *)
Fixpoint rfind_dot (s : string) : option nat :=
  match s with
  | EmptyString => None
  | String c s' =>
      match rfind_dot s' with
      | Some i => Some (S i)
      | None => if Ascii.eqb c "."%char then Some 0%nat else None
      end
  end.

(** [Path(name).stem] for a bare file name (os.listdir yields no
    separators): the name without its last suffix; a leading dot or a
    trailing dot is no suffix. *)
Definition stem (name : string) : string :=
  match rfind_dot name with
  | Some i =>
      if (0 <? i)%nat && (i <? String.length name - 1)%nat
      then substring 0 i name
      else name
  | None => name
  end.

(** [os.path.join(a, b)] on POSIX. *)
Definition path_join (a b : string) : string :=
  if startswith b "/" then b
  else if (a =? "") || endswith a "/" then (a ++ b)%string
  else (a ++ "/" ++ b)%string.

(** [str.__le__]: code-point order, here on 8-bit characters. *)
Definition le (a b : string) : bool := String.leb a b.

End PyStr.

(* ------------------------------------------------------------------ *)
(** ** [sorted] on strings *)

Module StringOrder <: TotalLeBool.
Definition t := string.
Definition leb : t -> t -> bool := PyStr.le.
Lemma leb_total : forall a b, leb a b = true \/ leb b a = true.
Proof. intros a b. apply String.leb_total. Qed.
End StringOrder.

Module StringSort := Sort StringOrder.

(** [sorted(names)]: Python's sort is a merge sort too; on a total order
    whose ties are equal strings the result does not depend on the
    algorithm. *)
Definition sorted (names : list string) : list string := StringSort.sort names.

(* ------------------------------------------------------------------ *)
(** ** The regular expressions of the script *)

Module Re.

Definition text := list ascii.

(** [\d] on 8-bit text. *)
Definition is_digit (c : ascii) : bool :=
  let n := nat_of_ascii c in (48 <=? n)%nat && (n <=? 57)%nat.

(** The two patterns are sequences of literal characters and one greedy
    captured run of digits. *)
Inductive item : Type :=
| Lit (c : ascii)
| Digits1.                      (* the group [(\d+)] *)

Definition pattern := list item.

Definition lit (s : string) : pattern := map Lit (list_ascii_of_string s).

Fixpoint take_digits (s : text) : text :=
  match s with
  | c :: s' => if is_digit c then c :: take_digits s' else []
  | [] => []
  end.

Fixpoint drop_digits (s : text) : text :=
  match s with
  | c :: s' => if is_digit c then drop_digits s' else s
  | [] => []
  end.

(** Anchored match of [p] at the head of [s]: the captured groups and the
    unconsumed rest.  [(\d+)] is greedy: it first takes the whole run of
    digits and gives digits back one at a time while the rest of the
    pattern fails. *)
Fixpoint match_here (p : pattern) (s : text) : option (list text * text) :=
  match p with
  | [] => Some ([], s)
  | Lit c :: p' =>
      match s with
      | c' :: s' => if Ascii.eqb c c' then match_here p' s' else None
      | [] => None
      end
  | Digits1 :: p' =>
      (fix give_back (k : nat) : option (list text * text) :=
         match k with
         | O => None
         | S k' =>
             match match_here p' (skipn k s) with
             | Some (groups, rest) => Some (firstn k s :: groups, rest)
             | None => give_back k'
             end
         end) (List.length (take_digits s))
  end.

(** The scan of [re.findall]: try every position from the left; after a
    match resume behind it ([skip] counts the characters of the last
    match still to be passed; an empty match moves on by one). *)
Fixpoint scan (p : pattern) (skip : nat) (s : text) : list (list text) :=
  match s with
  | [] =>
      match skip, match_here p [] with
      | O, Some (groups, _) => [groups]
      | _, _ => []
      end
  | _ :: s' =>
      match skip with
      | S k => scan p k s'
      | O =>
          match match_here p s with
          | Some (groups, rest) =>
              groups :: scan p (List.length s - List.length rest - 1) s'
          | None => scan p 0 s'
          end
      end
  end.

(** [re.findall(p, s)] for a pattern with one group: the list of the
    group's text, one per match. *)
Definition findall (p : pattern) (s : text) : list text :=
  map (fun groups => hd [] groups) (scan p 0 s).

(** r"(\d+)k data points per second" *)
Definition throughput_pattern : pattern :=
  Digits1 :: lit "k data points per second".

(** r" completed in (\d+)" *)
Definition duration_pattern : pattern :=
  lit " completed in " ++ [Digits1].

End Re.

(** [int(match)] on a run of decimal digits. *)
Definition digit_value (c : ascii) : Z := Z.of_nat (nat_of_ascii c - 48).

Definition int (digits : Re.text) : Z :=
  fold_left (fun acc c => (10 * acc + digit_value c)%Z) digits 0%Z.

Definition newline : ascii := "010"%char.

(** Iterating a text file: the lines, each with its terminator. *)
Fixpoint readlines (s : Re.text) : list Re.text :=
  match s with
  | [] => []
  | c :: s' =>
      if Ascii.eqb c newline then [c] :: readlines s'
      else match readlines s' with
           | [] => [[c]]
           | l :: ls => (c :: l) :: ls
           end
  end.

(** Lines 48-55: the body of [for line in file] on the two accumulators. *)
Definition scrape_line (acc : list Z * list Z) (line : Re.text)
  : list Z * list Z :=
  let '(dataPointsPerSecond, benchmarkLengths) := acc in
  (dataPointsPerSecond ++ map int (Re.findall Re.throughput_pattern line),
   benchmarkLengths ++ map int (Re.findall Re.duration_pattern line)).

Definition scrape_file (acc : list Z * list Z) (content : string)
  : list Z * list Z :=
  fold_left scrape_line (readlines (list_ascii_of_string content)) acc.


(* ------------------------------------------------------------------ *)
(** ** Values, exceptions and [statistics.mean] *)

(** A Python number: an [int], or a [float] given by the rational it
    rounds. *)
Inductive number : Type :=
| PyInt (z : Z)
| PyFloat (q : Q).

Definition number_value (x : number) : Q :=
  match x with
  | PyInt z => inject_Z z
  | PyFloat q => q
  end.

Inductive exn : Type :=
| ValueError                      (* str.index: substring not found *)
| OSError (path : string)         (* listdir, subprocess, open *)
| StatisticsError.                (* mean requires at least one data point *)

Inductive result (A : Type) : Type :=
| Ok (a : A)
| Raise (e : exn).
Arguments Ok {A} a.
Arguments Raise {A} e.

Module Statistics.

(** [_sum(data)] on ints: the exact total and the count. *)
Definition sum_exact (data : list Z) : Z * nat :=
  fold_left (fun acc x => ((fst acc + x)%Z, S (snd acc))) data (0%Z, O).

(** [_convert(value, int)]: an integral fraction stays an [int], any
    other becomes a [float]. *)
Definition convert (value : Q) : number :=
  if (Qden value =? 1)%positive then PyInt (Qnum value) else PyFloat value.

(** [statistics.mean(data)]: [Fraction(total) / n], in lowest terms. *)
Definition mean (data : list Z) : result number :=
  let '(total, n) := sum_exact data in
  if (n <? 1)%nat then Raise StatisticsError
  else Ok (convert (Qred (total # Pos.of_nat n))).

End Statistics.

(* ------------------------------------------------------------------ *)
(** ** Dictionaries and JSON *)

(** A [dict] keeps its keys in insertion order; assigning to a key that is
    present replaces the value in place. *)
Definition dict (V : Type) : Type := list (string * V).

Fixpoint dict_set {V : Type} (d : dict V) (k : string) (v : V) : dict V :=
  match d with
  | [] => [(k, v)]
  | (k', v') :: d' =>
      if String.eqb k' k then (k, v) :: d' else (k', v') :: dict_set d' k v
  end.

Fixpoint dict_get {V : Type} (d : dict V) (k : string) : option V :=
  match d with
  | [] => None
  | (k', v') :: d' => if String.eqb k' k then Some v' else dict_get d' k
  end.

Definition keys {V : Type} (d : dict V) : list string := map fst d.

(** The value of [resultsPerLanguage[algorithmName]]. *)
Record metric : Type := Metric {
  average_dps : number;
  samples : list Z;
  average_length : number
}.

Definition results_table : Type := dict (dict metric).

#[local] Set Warnings "-register-all".

(** The document [json.dump] writes, as a tree. *)
Inductive json : Type :=
| JNumber (x : number)
| JArray (items : list json)
| JObject (members : list (string * json)).

Definition json_of_metric (m : metric) : json :=
  JObject [("average-dps", JNumber (average_dps m));
           ("samples", JArray (map (fun z => JNumber (PyInt z)) (samples m)));
           ("average-length", JNumber (average_length m))].

Definition json_of_dict {V : Type} (f : V -> json) (d : dict V) : json :=
  JObject (map (fun kv => (fst kv, f (snd kv))) d).

Definition json_of_results (results : results_table) : json :=
  json_of_dict (json_of_dict json_of_metric) results.

(* ------------------------------------------------------------------ *)
(** ** The world of the script: files, the engine, the trace *)

Inductive stream : Type := DEVNULL | INHERIT.

(** One call of [subprocess.run]. *)
Record invocation : Type := Invocation {
  args : list string;
  cwd : string;
  stdout : stream;
  stderr : stream
}.

Record FS : Type := MkFS {
  fs_dirs : dict (list string);   (* directories that can be listed *)
  fs_files : dict string          (* text of the files that can be read *)
}.

(** What the script cannot control.  The engine is a black box: it maps
    the file system to the one it leaves behind, or fails to launch. *)
Record World : Type := MkWorld {
  sys_argv : list string;
  engine : invocation -> FS -> option FS;
  writable : string -> bool;
  initial_fs : FS
}.

Inductive event : Type :=
| EvListdir (dir : string) (entries : list string)
| EvRun (i : invocation)
| EvOpen (path : string) (mode : string)
| EvClose (path : string)
| EvDump (path : string) (doc : json).

(** The interpreter state: the file system, the file object bound to the
    global [file] (by its path), and the effects so far.  CPython closes a
    file object when its last reference goes, which for [file] is the next
    assignment to it. *)
Record state : Type := MkState {
  st_fs : FS;
  st_file : option string;
  st_trace : list event
}.

Definition M (A : Type) : Type := state -> result A * state.

Definition ret {A : Type} (a : A) : M A := fun st => (Ok a, st).

Definition raise {A : Type} (e : exn) : M A := fun st => (Raise e, st).

Definition bind {A B : Type} (c : M A) (k : A -> M B) : M B :=
  fun st =>
    match c st with
    | (Ok a, st') => k a st'
    | (Raise e, st') => (Raise e, st')
    end.

Declare Scope py_scope.
Delimit Scope py_scope with py.
Notation "x <- c ;; k" := (bind c (fun x => k))
  (at level 61, c at next level, right associativity) : py_scope.
Notation "c ;; k" := (bind c (fun _ => k))
  (at level 61, right associativity) : py_scope.
Local Open Scope py_scope.

Definition lift {A : Type} (r : result A) : M A := fun st => (r, st).

Definition log (ev : event) : M unit :=
  fun st => (Ok tt, MkState (st_fs st) (st_file st) (st_trace st ++ [ev])).

(** A [for] loop that threads an accumulator. *)
Fixpoint for_each {A B : Type} (xs : list A) (body : B -> A -> M B) (acc : B)
  : M B :=
  match xs with
  | [] => ret acc
  | x :: xs' => acc' <- body acc x ;; for_each xs' body acc'
  end.

(** [range(a, b)]. *)
Definition range (a b : nat) : list nat := seq a (b - a).

Section Script.

Variable w : World.

(** [os.listdir(dir)] *)
Definition listdir (dir : string) : M (list string) :=
  fun st =>
    match dict_get (fs_dirs (st_fs st)) dir with
    | Some entries => (log (EvListdir dir entries) ;; ret entries) st
    | None => (Raise (OSError dir), st)
    end.

(** [subprocess.run(...)]: blocks until the engine is done; the exit
    status is not looked at. *)
Definition subprocess_run (i : invocation) : M unit :=
  log (EvRun i) ;;
  fun st =>
    match engine w i (st_fs st) with
    | Some fs' => (Ok tt, MkState fs' (st_file st) (st_trace st))
    | None => (Raise (OSError (hd "" (args i))), st)
    end.

(** [file = open(path, 'r')]: the new file object is bound to [file];
    the object bound before loses its last reference and is closed. *)
Definition open_into_file (path : string) : M string :=
  fun st =>
    match dict_get (fs_files (st_fs st)) path with
    | Some content =>
        (log (EvOpen path "r") ;;
         (fun st' =>
            match st_file st' with
            | Some old =>
                (Ok tt, MkState (st_fs st') (Some path)
                          (st_trace st' ++ [EvClose old]))
            | None =>
                (Ok tt, MkState (st_fs st') (Some path) (st_trace st'))
            end) ;;
         ret content) st
    | None => (Raise (OSError path), st)
    end.

(** [with open(path, "w") as outfile: json.dump(value, outfile)] *)
Definition dump_to (path : string) (doc : json) : M unit :=
  if writable w path
  then log (EvOpen path "w") ;; log (EvDump path doc) ;; log (EvClose path)
  else raise (OSError path).

Definition release_directory : string := "./Launcher/bin/Release".

(** Lines 28-42. *)
Definition engine_invocation
    (dataPath language algorithmName algorithmLocation : string)
  : invocation :=
  Invocation
    ["dotnet";
     "./QuantConnect.Lean.Launcher.dll";
     ("--data-folder " ++ dataPath)%string;
     ("--algorithm-language " ++ language)%string;
     ("--algorithm-type-name " ++ algorithmName)%string;
     ("--algorithm-location " ++ algorithmLocation)%string;
     "--log-handler ConsoleErrorLogHandler";
     "--close-automatically true"]
    release_directory DEVNULL DEVNULL.

(** Lines 44-46. *)
Definition algorithm_log (algorithmName : string) : string :=
  PyStr.path_join release_directory (algorithmName ++ "-log.txt")%string.

(** Line 22. *)
Definition algorithm_location (baseDirectory language algorithmFile : string)
  : string :=
  if language =? "CSharp" then "QuantConnect.Algorithm.CSharp.dll"
  else PyStr.path_join (PyStr.path_join "../../../" baseDirectory)
         algorithmFile.

(** Lines 28-55: one repetition. *)
Definition repetition
    (dataPath language algorithmName algorithmLocation : string)
    (acc : list Z * list Z) (_ : nat) : M (list Z * list Z) :=
  subprocess_run
    (engine_invocation dataPath language algorithmName algorithmLocation) ;;
  content <- open_into_file (algorithm_log algorithmName) ;;
  ret (scrape_file acc content).

(** Lines 21-59: the body of the [if]. *)
Definition run_algorithm (dataPath baseDirectory language : string)
    (resultsPerLanguage : dict metric) (algorithmFile : string)
  : M (dict metric) :=
  let algorithmName := PyStr.stem algorithmFile in
  let algorithmLocation :=
    algorithm_location baseDirectory language algorithmFile in
  acc <- for_each (range 1 2)
           (repetition dataPath language algorithmName algorithmLocation)
           ([], []) ;;
  let '(dataPointsPerSecond, benchmarkLengths) := acc in
  averageDps <- lift (Statistics.mean dataPointsPerSecond) ;;
  averageLength <- lift (Statistics.mean benchmarkLengths) ;;
  ret (dict_set resultsPerLanguage algorithmName
         (Metric averageDps dataPointsPerSecond averageLength)).

(** Line 19. *)
Definition is_algorithm_file (algorithmFile : string) : bool :=
  PyStr.endswith_any algorithmFile ["py"; "cs"].

(** Lines 18-59: the body of [for algorithmFile in ...]. *)
Definition visit_file (dataPath baseDirectory language : string)
    (resultsPerLanguage : dict metric) (algorithmFile : string)
  : M (dict metric) :=
  if is_algorithm_file algorithmFile
  then run_algorithm dataPath baseDirectory language
         resultsPerLanguage algorithmFile
  else ret resultsPerLanguage.

(** Line 15: [baseDirectory[len("Algorithm") + 1:baseDirectory.index("/")]]. *)
Definition language (baseDirectory : string) : result string :=
  match PyStr.index "/" baseDirectory with
  | Some j =>
      Ok (PyStr.slice (String.length "Algorithm" + 1) j baseDirectory)
  | None => Raise ValueError
  end.

(** Lines 13-61: the body of [for baseDirectory in ...]. *)
Definition run_language (dataPath : string) (results : results_table)
    (baseDirectory : string) : M results_table :=
  language <- lift (language baseDirectory) ;;
  entries <- listdir baseDirectory ;;
  resultsPerLanguage <-
    for_each (sorted entries)
      (visit_file dataPath baseDirectory language) [] ;;
  ret (dict_set results language resultsPerLanguage).

Definition base_directories : list string :=
  ["Algorithm.CSharp/Benchmarks"; "Algorithm.Python/Benchmarks"].

Definition output_file : string := "benchmark_results.json".

(** Line 9. *)
Definition data_path : string :=
  if (1 <? List.length (sys_argv w))%nat
  then nth 1 (sys_argv w) ""
  else "../../../Data".

(** Lines 12-61. *)
Definition benchmark_all : M results_table :=
  for_each base_directories (run_language data_path) [].

(** The whole script. *)
Definition main : M unit :=
  results <- benchmark_all ;;
  dump_to output_file (json_of_results results).

Definition initial_state : state := MkState (initial_fs w) None [].

Definition run_script : result unit * state := main initial_state.

End Script.

(** ** Reading a trace *)

Definition invocations (tr : list event) : list invocation :=
  flat_map (fun ev => match ev with EvRun i => [i] | _ => [] end) tr.

Definition opened_for_reading (tr : list event) : list string :=
  flat_map (fun ev => match ev with
                      | EvOpen p m => if m =? "r" then [p] else []
                      | _ => []
                      end) tr.

Definition dumps (tr : list event) : list (string * json) :=
  flat_map (fun ev => match ev with EvDump p d => [(p, d)] | _ => [] end) tr.

(** The document on disk after the run, if the script wrote one. *)
Definition persisted (tr : list event) : option json :=
  match rev (dumps tr) with
  | (_, doc) :: _ => Some doc
  | [] => None
  end.

(** Algorithm discovery (lines 18-21): the files the loop runs, in the
    order it runs them, and the names it gives them. *)
Definition candidates (entries : list string) : list string :=
  filter is_algorithm_file (sorted entries).

Definition discovery (entries : list string) : list string :=
  map PyStr.stem (candidates entries).

(** The directory listings of a run, in order. *)
Definition listings (tr : list event) : list (string * list string) :=
  flat_map (fun ev => match ev with
                      | EvListdir dir entries => [(dir, entries)]
                      | _ => []
                      end) tr.

(** The candidates a run has discovered: directory and file name. *)
Definition discovered (tr : list event) : list (string * string) :=
  flat_map (fun l => map (pair (fst l)) (candidates (snd l))) (listings tr).

Definition language_name (baseDirectory : string) : string :=
  match language baseDirectory with
  | Ok l => l
  | Raise _ => ""
  end.

(** The engine call and the log file of a discovered candidate. *)
Definition invocation_of (dataPath : string) (c : string * string)
  : invocation :=
  let '(baseDirectory, algorithmFile) := c in
  engine_invocation dataPath (language_name baseDirectory)
    (PyStr.stem algorithmFile)
    (algorithm_location baseDirectory (language_name baseDirectory)
       algorithmFile).

Definition log_of (c : string * string) : string :=
  algorithm_log (PyStr.stem (snd c)).

(** The keys of a dictionary after assigning to [names] in order. *)
Definition insert_keys (ks : list string) (names : list string) : list string :=
  fold_left (fun ks name =>
               if existsb (String.eqb name) ks then ks else ks ++ [name])
    names ks.

(** The shape of the persisted document, as the specification draws it. *)
Definition is_number (j : json) : bool :=
  match j with JNumber _ => true | _ => false end.

Definition metric_shape (j : json) : bool :=
  match j with
  | JObject [(k1, JNumber _); (k2, JArray items); (k3, JNumber _)] =>
      (k1 =? "average-dps") && (k2 =? "samples") && (k3 =? "average-length")
      && forallb is_number items
  | _ => false
  end.

Definition language_shape (j : json) : bool :=
  match j with
  | JObject members => forallb (fun kv => metric_shape (snd kv)) members
  | _ => false
  end.

Definition document_shape (j : json) : bool :=
  match j with
  | JObject members => forallb (fun kv => language_shape (snd kv)) members
  | _ => false
  end.

Definition member (j : json) (k : string) : option json :=
  match j with
  | JObject members => dict_get members k
  | _ => None
  end.

(* ------------------------------------------------------------------ *)
(** ** The log scraper as the specification words it

    These definitions do not come from the script: they say, position by
    position, what an occurrence of each signal in a text is.  The script's
    scan is compared with them below. *)

Module ScraperSpec.

Import Re.

Definition throughput_suffix : text :=
  list_ascii_of_string "k data points per second".

Definition duration_prefix : text :=
  list_ascii_of_string " completed in ".

Fixpoint starts_with (l s : text) : bool :=
  match l, s with
  | [], _ => true
  | a :: l', b :: s' => Ascii.eqb a b && starts_with l' s'
  | _ :: _, [] => false
  end.

Definition digit_at (s : text) (i : nat) : bool :=
  match nth_error s i with
  | Some c => is_digit c
  | None => false
  end.

(** A run of digits starts at [i]: a digit that no digit precedes. *)
Definition run_starts_at (s : text) (i : nat) : bool :=
  digit_at s i && negb (match i with O => false | S j => digit_at s j end).

(** The run of digits at [i] when the throughput suffix follows it. *)
Definition throughput_at (s : text) (i : nat) : list Z :=
  if run_starts_at s i && starts_with throughput_suffix (drop_digits (skipn i s))
  then [int (take_digits (skipn i s))]
  else [].

(** The run of digits behind the duration prefix when the prefix is at
    [i] and a digit follows it. *)
Definition duration_at (s : text) (i : nat) : list Z :=
  if starts_with duration_prefix (skipn i s)
     && digit_at s (i + List.length duration_prefix)
  then [int (take_digits (skipn (i + List.length duration_prefix) s))]
  else [].

Definition positions (s : text) : list nat := seq 0 (List.length s).

(** One integer per occurrence, from left to right. *)
Definition throughput_sequence (s : text) : list Z :=
  flat_map (throughput_at s) (positions s).

Definition duration_sequence (s : text) : list Z :=
  flat_map (duration_at s) (positions s).

End ScraperSpec.

(** ** The two kinds of occurrence, as relations

    [run] at position [i] of [s] is a run of digits immediately followed
    by the throughput suffix; no digit stands before it. *)
Definition throughput_occurrence (s : Re.text) (i : nat) (run : Re.text)
  : Prop :=
  exists pre post,
    s = pre ++ run ++ ScraperSpec.throughput_suffix ++ post
    /\ List.length pre = i
    /\ run <> []
    /\ forallb Re.is_digit run = true
    /\ ScraperSpec.digit_at pre (List.length pre - 1) = false.

(** The duration prefix stands at position [i] of [s], immediately
    followed by the run of digits [run]; no digit stands behind it. *)
Definition duration_occurrence (s : Re.text) (i : nat) (run : Re.text)
  : Prop :=
  exists pre post,
    s = pre ++ ScraperSpec.duration_prefix ++ run ++ post
    /\ List.length pre = i
    /\ run <> []
    /\ forallb Re.is_digit run = true
    /\ ScraperSpec.digit_at post 0 = false.

(* ------------------------------------------------------------------ *)
(** ** Auxiliary definitions for the proofs *)

Module Aux.

Import Re ScraperSpec.

(** The loop inside [match_here] for [(\d+)], as a function of its own. *)
Fixpoint give_back (p' : pattern) (s : text) (k : nat)
  : option (list text * text) :=
  match k with
  | O => None
  | S k' =>
      match match_here p' (skipn k s) with
      | Some (groups, rest) => Some (firstn k s :: groups, rest)
      | None => give_back p' s k'
      end
  end.

(** [throughput_sequence] read from left to right; [after_digit] says
    whether the character before [s] is a digit. *)
Fixpoint throughput_from (after_digit : bool) (s : text) : list Z :=
  match s with
  | [] => []
  | c :: s' =>
      (if is_digit c && negb after_digit
          && starts_with throughput_suffix (drop_digits s)
       then [int (take_digits s)] else [])
      ++ throughput_from (is_digit c) s'
  end.

Definition duration_here (s : text) : list Z :=
  if starts_with duration_prefix s
     && negb (Nat.eqb (List.length (take_digits
                 (skipn (List.length duration_prefix) s))) 0)
  then [int (take_digits (skipn (List.length duration_prefix) s))]
  else [].

Fixpoint duration_from (s : text) : list Z :=
  match s with
  | [] => []
  | _ :: s' => duration_here s ++ duration_from s'
  end.

Definition ends_with_digit (pre : text) : bool :=
  match List.length pre with
  | O => false
  | S j => digit_at pre j
  end.

End Aux.

(** ** Auxiliary definitions for the proofs about the script *)

(** The events of opening the log: the open, then the close of the file
    object [file] was bound to. *)
Definition open_events (previous : option string) (path : string)
  : list event :=
  EvOpen path "r" ::
  match previous with Some old => [EvClose old] | None => [] end.

(** The outcome of lines 56-58 on the scraped samples. *)
Definition aggregate (resultsPerLanguage : dict metric) (name : string)
    (acc : list Z * list Z) : result (dict metric) :=
  match Statistics.mean (fst acc) with
  | Raise e => Raise e
  | Ok averageDps =>
      match Statistics.mean (snd acc) with
      | Raise e => Raise e
      | Ok averageLength =>
          Ok (dict_set resultsPerLanguage name
                (Metric averageDps (fst acc) averageLength))
      end
  end.

Definition is_ok {A : Type} (r : result A) : bool :=
  match r with Ok _ => true | Raise _ => false end.

(** What the loop over one directory's files has done: it ran the first
    [k] candidates and opened the logs of the first [k'] of them. *)
Record loop_facts (dataPath baseDirectory : string) (files : list string)
    (evs : list event) (k k' : nat) : Prop := LoopFacts {
  lf_listings : listings evs = [];
  lf_dumps : dumps evs = [];
  lf_invocations :
    invocations evs
    = map (invocation_of dataPath) (map (pair baseDirectory) (firstn k files));
  lf_opened :
    opened_for_reading evs
    = map log_of (map (pair baseDirectory) (firstn k' files));
  lf_bounds : (k' <= k <= List.length files)%nat
}.

Definition nonempty_samples (rpl : dict metric) : Prop :=
  Forall (fun kv => samples (snd kv) <> []) rpl.

(** What a run has done so far: it ran the first [k] of the candidates it
    discovered and opened the logs of the first [k'] of them. *)
Record run_facts (dataPath : string) (evs : list event) (k k' : nat)
  : Prop := RunFacts {
  rf_dumps : dumps evs = [];
  rf_directories : Forall (fun l => In (fst l) base_directories) (listings evs);
  rf_invocations :
    invocations evs = map (invocation_of dataPath) (firstn k (discovered evs));
  rf_opened :
    opened_for_reading evs = map log_of (firstn k' (discovered evs));
  rf_bounds : (k' <= k <= List.length (discovered evs))%nat
}.

(** The keys of a JSON object, in the order they are written. *)
Definition json_keys (j : json) : list string :=
  match j with
  | JObject members => map fst members
  | _ => []
  end.

Definition json_values (j : json) : list json :=
  match j with
  | JObject members => map snd members
  | _ => []
  end.

(* ------------------------------------------------------------------ *)
(** ** Example worlds *)

(** An engine that writes, for the algorithm it is asked to run, the log
    text [logs] gives for that name (nothing when [logs] has none). *)
Definition type_name (i : invocation) : string :=
  let a := nth 4 (args i) "" in
  substring 22 (String.length a - 22) a.

Definition scripted_engine (logs : dict string) (i : invocation) (fs : FS)
  : option FS :=
  Some (MkFS (fs_dirs fs)
          (dict_set (fs_files fs)
             (cwd i ++ "/" ++ type_name i ++ "-log.txt")%string
             (match dict_get logs (type_name i) with
              | Some t => t
              | None => ""
              end))).

Definition line (s : string) : string := (s ++ String newline "")%string.

Definition alpha_log : string :=
  (line "10k data points per second" ++ line "Backtest completed in 5 seconds")%string.

Definition alpha_beta_fs : FS :=
  MkFS [("Algorithm.CSharp/Benchmarks", ["Beta.cs"; "Alpha.cs"]);
        ("Algorithm.Python/Benchmarks", [])]
       [].

(** The scenario of the specification: Alpha's log has both signals,
    Beta's log is empty. *)
Definition alpha_beta_world : World :=
  MkWorld ["run_benchmarks.py"]
    (scripted_engine [("Alpha", alpha_log); ("Beta", "")])
    (fun _ => true) alpha_beta_fs.

(** Both logs have both signals. *)
Definition two_good_world : World :=
  MkWorld ["run_benchmarks.py"]
    (scripted_engine [("Alpha", alpha_log); ("Beta", alpha_log)])
    (fun _ => true) alpha_beta_fs.

(** The files that are open when the engine is started, call by call: a
    replay of the trace. *)
Fixpoint remove_first (p : string) (l : list string) : list string :=
  match l with
  | [] => []
  | q :: l' => if String.eqb p q then l' else q :: remove_first p l'
  end.

Fixpoint open_at_runs (open : list string) (tr : list event)
  : list (list string * list string) :=
  match tr with
  | [] => []
  | EvRun i :: tr' => (args i, open) :: open_at_runs open tr'
  | EvOpen p _ :: tr' => open_at_runs (open ++ [p]) tr'
  | EvClose p :: tr' => open_at_runs (remove_first p open) tr'
  | _ :: tr' => open_at_runs open tr'
  end.

(** The files still open at the end of a trace. *)
Definition left_open (tr : list event) : list string :=
  fold_left (fun open ev =>
               match ev with
               | EvOpen p _ => open ++ [p]
               | EvClose p => remove_first p open
               | _ => open
               end) tr [].

(* ------------------------------------------------------------------ *)
(** ** Auxiliary definitions for the further properties *)

(** The file object bound to [file], as a list of open paths. *)
Definition handles (st : state) : list string :=
  match st_file st with Some p => [p] | None => [] end.

(** One step of the replay of a trace on the open files. *)
Definition handle_step (open : list string) (ev : event) : list string :=
  match ev with
  | EvOpen p _ => open ++ [p]
  | EvClose p => remove_first p open
  | _ => open
  end.

(** A computation keeps the invariant [P] of the state and raises only
    exceptions in [E]. *)
Definition keeps {A : Type} (P : state -> Prop) (E : exn -> Prop) (c : M A)
  : Prop :=
  forall st r st',
    P st -> c st = (r, st') ->
    P st' /\ forall e, r = Raise e -> E e.

(** The exceptions the script can end with. *)
Definition os_or_statistics_error (e : exn) : Prop :=
  e = StatisticsError \/ exists p, e = OSError p.

(** Every engine call so far found at most one file open, and the open
    files are the one bound to [file]. *)
Definition one_handle (st : state) : Prop :=
  left_open (st_trace st) = handles st
  /\ Forall (fun c => (List.length (snd c) <= 1)%nat)
       (open_at_runs [] (st_trace st)).

(** More example worlds: no benchmark directory at all; an engine that
    cannot be launched; an engine that writes no log; an output file that
    cannot be written. *)
Definition no_directories_world : World :=
  MkWorld ["run_benchmarks.py"] (fun _ fs => Some fs) (fun _ => true)
    (MkFS [] []).

Definition no_engine_world : World :=
  MkWorld ["run_benchmarks.py"] (fun _ _ => None) (fun _ => true)
    alpha_beta_fs.

Definition silent_engine_world : World :=
  MkWorld ["run_benchmarks.py"] (fun _ fs => Some fs) (fun _ => true)
    alpha_beta_fs.

Definition read_only_world : World :=
  MkWorld ["run_benchmarks.py"]
    (scripted_engine [("Alpha", alpha_log); ("Beta", alpha_log)])
    (fun _ => false) alpha_beta_fs.

(** The file system after the engine calls [calls], made one after the
    other from [fs]; a call that cannot be launched changes nothing. *)
Definition replay_engine (w : World) (fs : FS) (calls : list invocation) : FS :=
  fold_left (fun fs i => match engine w i fs with
                         | Some fs' => fs'
                         | None => fs
                         end) calls fs.

Definition only_engine_writes (w : World) (st : state) : Prop :=
  st_fs st = replay_engine w (initial_fs w) (invocations (st_trace st)).

(* ------------------------------------------------------------------ *)
(** * Proofs *)

(** ** The regular-expression matcher *)

Section ReFacts.
Import Re ScraperSpec Aux.

Lemma take_drop_digits s : take_digits s ++ drop_digits s = s.
Proof.
  induction s as [|c s IH]; simpl; [reflexivity|].
  destruct (is_digit c); simpl; [now rewrite IH | reflexivity].
Qed.

Lemma firstn_take_digits s :
  firstn (List.length (take_digits s)) s = take_digits s.
Proof.
  induction s as [|c s IH]; simpl; [reflexivity|].
  destruct (is_digit c); simpl; [now rewrite IH | reflexivity].
Qed.

Lemma skipn_take_digits s :
  skipn (List.length (take_digits s)) s = drop_digits s.
Proof.
  induction s as [|c s IH]; simpl; [reflexivity|].
  destruct (is_digit c); simpl; [now rewrite IH | reflexivity].
Qed.

Lemma take_digits_all s : forallb is_digit (take_digits s) = true.
Proof.
  induction s as [|c s IH]; simpl; [reflexivity|].
  destruct (is_digit c) eqn:E; simpl; [now rewrite E | reflexivity].
Qed.

Lemma drop_digits_head s c r : drop_digits s = c :: r -> is_digit c = false.
Proof.
  induction s as [|a s IH]; simpl; [discriminate|].
  destruct (is_digit a) eqn:E; [exact IH|].
  intros H; injection H as <- _; exact E.
Qed.

Lemma take_digits_app run x :
  forallb is_digit run = true ->
  take_digits (run ++ x) = run ++ take_digits x.
Proof.
  induction run as [|c run IH]; simpl; [reflexivity|].
  intros H; apply andb_prop in H as [Hc Hr]; rewrite Hc, IH; auto.
Qed.

Lemma drop_digits_app run x :
  forallb is_digit run = true ->
  drop_digits (run ++ x) = drop_digits x.
Proof.
  induction run as [|c run IH]; simpl; [reflexivity|].
  intros H; apply andb_prop in H as [Hc Hr]; rewrite Hc, IH; auto.
Qed.

Lemma starts_with_app l r : starts_with l (l ++ r) = true.
Proof.
  induction l as [|a l IH]; simpl; [reflexivity|].
  now rewrite Ascii.eqb_refl, IH.
Qed.

Lemma starts_with_split l s :
  starts_with l s = true -> s = l ++ skipn (List.length l) s.
Proof.
  revert s; induction l as [|a l IH]; intros [|b s]; simpl; try discriminate;
    try reflexivity.
  intros H; apply andb_prop in H as [Hab Hl].
  apply Ascii.eqb_eq in Hab; subst b. f_equal; auto.
Qed.

(** A sequence of literals matches exactly when the text starts with it. *)
Lemma match_here_lit_app l p s :
  match_here (map Lit l ++ p) s =
  if starts_with l s then match_here p (skipn (List.length l) s) else None.
Proof.
  revert s; induction l as [|a l IH]; intros s; [reflexivity|].
  destruct s as [|b s]; [reflexivity|].
  cbn [map app match_here starts_with List.length skipn].
  destruct (Ascii.eqb a b); [apply IH | reflexivity].
Qed.

Lemma match_here_lit l s :
  match_here (map Lit l) s =
  if starts_with l s then Some ([], skipn (List.length l) s) else None.
Proof.
  rewrite <- (app_nil_r (map Lit l)), match_here_lit_app.
  destruct (starts_with l s); reflexivity.
Qed.

Lemma match_here_digits p' s :
  match_here (Digits1 :: p') s = give_back p' s (List.length (take_digits s)).
Proof.
  cbn [match_here]. generalize (List.length (take_digits s)) as n.
  induction n as [|n IH]; [reflexivity|].
  cbn [give_back]. destruct (match_here p' (skipn (S n) s)) as [[g r]|];
    [reflexivity | exact IH].
Qed.

(** Inside the run of digits the next character is a digit. *)
Lemma skipn_inside_digits s k :
  (k < List.length (take_digits s))%nat ->
  exists c r, skipn k s = c :: r /\ is_digit c = true.
Proof.
  revert k; induction s as [|a s IH]; intros k; simpl; [lia|].
  destruct (is_digit a) eqn:E; simpl; [|lia].
  destruct k as [|k]; intros Hk.
  - exists a, s; auto.
  - apply IH; lia.
Qed.

Lemma throughput_suffix_head c r :
  starts_with throughput_suffix (c :: r) = true -> is_digit c = false.
Proof.
  unfold throughput_suffix. cbn [list_ascii_of_string starts_with].
  destruct (Ascii.eqb_spec "k" c) as [<-|]; [reflexivity | discriminate].
Qed.

Lemma give_back_throughput s k :
  (k < List.length (take_digits s))%nat ->
  give_back (lit "k data points per second") s k = None.
Proof.
  induction k as [|k IH]; intros Hk; [reflexivity|].
  cbn [give_back]. unfold lit at 1. rewrite match_here_lit.
  destruct (skipn_inside_digits s (S k) Hk) as (c & r & -> & Hc).
  fold throughput_suffix.
  destruct (starts_with throughput_suffix (c :: r)) eqn:E.
  - apply throughput_suffix_head in E; congruence.
  - apply IH; lia.
Qed.

(** The throughput pattern matches at the head of [s] exactly when [s]
    starts with a run of digits that the suffix follows; the group is
    the whole run. *)
Lemma match_throughput s :
  match_here throughput_pattern s =
  if negb (Nat.eqb (List.length (take_digits s)) 0)
     && starts_with throughput_suffix (drop_digits s)
  then Some ([take_digits s],
             skipn (List.length throughput_suffix) (drop_digits s))
  else None.
Proof.
  unfold throughput_pattern. rewrite match_here_digits.
  destruct (List.length (take_digits s)) as [|n] eqn:En; [reflexivity|].
  cbn [give_back Nat.eqb negb andb]. unfold lit at 1.
  rewrite match_here_lit. fold throughput_suffix.
  rewrite <- En, skipn_take_digits, firstn_take_digits.
  destruct (starts_with throughput_suffix (drop_digits s)); [reflexivity|].
  apply give_back_throughput. lia.
Qed.

Lemma match_duration s :
  match_here duration_pattern s =
  if starts_with duration_prefix s
     && negb (Nat.eqb (List.length (take_digits
                 (skipn (List.length duration_prefix) s))) 0)
  then Some ([take_digits (skipn (List.length duration_prefix) s)],
             drop_digits (skipn (List.length duration_prefix) s))
  else None.
Proof.
  unfold duration_pattern, lit. rewrite match_here_lit_app.
  fold duration_prefix.
  destruct (starts_with duration_prefix s); [|reflexivity].
  set (t := skipn (List.length duration_prefix) s).
  rewrite match_here_digits.
  destruct (List.length (take_digits t)) as [|n] eqn:En; [reflexivity|].
  cbn [give_back match_here Nat.eqb negb andb].
  now rewrite <- En, skipn_take_digits, firstn_take_digits.
Qed.
End ReFacts.

Section ScanFacts.
Import Re ScraperSpec Aux.

Lemma scan_skip p l r : scan p (List.length l) (l ++ r) = scan p 0 r.
Proof. induction l as [|a l IH]; [reflexivity | exact IH]. Qed.

Lemma throughput_from_digits run x :
  forallb is_digit run = true ->
  throughput_from true (run ++ x) = throughput_from true x.
Proof.
  induction run as [|c run IH]; [reflexivity|].
  cbn [forallb]. intros H; apply andb_prop in H as [Hc Hr].
  cbn [app throughput_from]. rewrite Hc. cbn [negb andb app]. auto.
Qed.

Lemma throughput_from_nondigits l b r :
  forallb (fun c => negb (is_digit c)) l = true ->
  throughput_from b (l ++ r)
  = throughput_from (match l with [] => b | _ => false end) r.
Proof.
  revert b; induction l as [|c l IH]; intros b; [reflexivity|].
  cbn [forallb]. intros H; apply andb_prop in H as [Hc Hr].
  apply negb_true_iff in Hc.
  cbn [app throughput_from]. rewrite Hc. cbn [andb app].
  rewrite IH by exact Hr. destruct l; reflexivity.
Qed.

Lemma take_digits_nonempty c s :
  negb (Nat.eqb (List.length (take_digits (c :: s))) 0) = is_digit c.
Proof. cbn [take_digits]. destruct (is_digit c); reflexivity. Qed.

Lemma scan_throughput n : forall s b,
  (List.length s <= n)%nat ->
  (b = true ->
   negb (Nat.eqb (List.length (take_digits s)) 0)
   && starts_with throughput_suffix (drop_digits s) = false) ->
  map int (findall throughput_pattern s) = throughput_from b s.
Proof.
  unfold findall.
  induction n as [|n IH]; intros [|c s'] b Hn Hb; try (cbn in Hn; lia);
    try reflexivity.
  cbn [scan]. rewrite match_throughput.
  destruct (negb (Nat.eqb (List.length (take_digits (c :: s'))) 0)
            && starts_with throughput_suffix (drop_digits (c :: s'))) eqn:E.
  - assert (b = false) as -> by (destruct b; [specialize (Hb eq_refl); congruence | reflexivity]).
    apply andb_prop in E as [Ed Es]. rewrite take_digits_nonempty in Ed.
    assert (Hd : drop_digits (c :: s') = drop_digits s')
      by (cbn [drop_digits]; now rewrite Ed).
    assert (Ht : take_digits (c :: s') = c :: take_digits s')
      by (cbn [take_digits]; now rewrite Ed).
    cbn [throughput_from]. rewrite Ed, Es, Ht, Hd. rewrite Hd in Es.
    cbn [negb andb].
    pose proof (take_drop_digits s') as Hs'.
    pose proof (take_digits_all s') as Hall.
    pose proof (starts_with_split _ _ Es) as Hrest.
    set (rest := skipn (List.length throughput_suffix) (drop_digits s')) in *.
    rewrite Hrest in Hs'. clearbody rest.
    remember (take_digits s') as run' eqn:Hrun. clear Hrun Hrest Es Hd Ht.
    subst s'.
    replace (List.length (c :: run' ++ throughput_suffix ++ rest)
             - List.length rest - 1)%nat
      with (List.length (run' ++ throughput_suffix))
      by (cbn [List.length]; rewrite !length_app; lia).
    rewrite app_assoc, scan_skip.
    cbn [map hd app]. f_equal.
    rewrite (IH rest false); [| | discriminate].
    + rewrite <- app_assoc, throughput_from_digits by exact Hall.
      rewrite throughput_from_nondigits by reflexivity. reflexivity.
    + cbn [List.length] in Hn. rewrite !length_app in Hn. lia.
  - rewrite take_digits_nonempty in E.
    cbn [throughput_from].
    assert (Hc : is_digit c && negb b
                 && starts_with throughput_suffix (drop_digits (c :: s')) = false).
    { destruct (is_digit c); [|reflexivity]. cbn [andb] in E. rewrite E.
      now rewrite andb_false_r. }
    rewrite Hc. cbn [app].
    apply IH; [cbn in Hn; lia|].
    intros Hd. revert E. cbn [drop_digits]. rewrite Hd. cbn [andb].
    intros ->. now rewrite andb_false_r.
Qed.

Lemma findall_throughput s :
  map int (findall throughput_pattern s) = throughput_from false s.
Proof. apply (scan_throughput (List.length s)); [lia | discriminate]. Qed.
End ScanFacts.

Section DurationFacts.
Import Re ScraperSpec Aux.

Lemma duration_here_nil a b x :
  Ascii.eqb " " a && Ascii.eqb "c" b = false ->
  duration_here (a :: b :: x) = [].
Proof.
  intros H. unfold duration_here, duration_prefix.
  cbn [list_ascii_of_string starts_with].
  destruct (Ascii.eqb " " a); [|reflexivity].
  cbn [andb] in H |- *. now rewrite H.
Qed.

Lemma duration_here_short a : duration_here [a] = [].
Proof.
  unfold duration_here, duration_prefix.
  cbn [list_ascii_of_string starts_with]. now rewrite andb_false_r.
Qed.

Lemma digit_not_space d : is_digit d = true -> Ascii.eqb " " d = false.
Proof.
  intros H. destruct (Ascii.eqb_spec " " d) as [<-|]; [discriminate H | reflexivity].
Qed.

Lemma digit_not_c d : is_digit d = true -> Ascii.eqb "c" d = false.
Proof.
  intros H. destruct (Ascii.eqb_spec "c" d) as [<-|]; [discriminate H | reflexivity].
Qed.

Lemma duration_here_digit d x : is_digit d = true -> duration_here (d :: x) = [].
Proof.
  intros H. destruct x as [|b x].
  - apply duration_here_short.
  - apply duration_here_nil. now rewrite digit_not_space.
Qed.

Lemma duration_from_digits run x :
  forallb is_digit run = true ->
  duration_from (run ++ x) = duration_from x.
Proof.
  induction run as [|d run IH]; [reflexivity|].
  cbn [forallb]. intros H; apply andb_prop in H as [Hd Hr].
  cbn [app duration_from]. rewrite duration_here_digit by exact Hd. auto.
Qed.

(** No second occurrence of the duration pattern starts inside one. *)
Lemma duration_from_inside d x :
  is_digit d = true ->
  duration_from (tl duration_prefix ++ d :: x) = duration_from (d :: x).
Proof.
  intros Hd. unfold duration_prefix.
  cbn [list_ascii_of_string tl app].
  do 12 (cbn [duration_from];
         rewrite duration_here_nil by reflexivity; cbn [app]).
  cbn [duration_from].
  rewrite duration_here_nil; [reflexivity|].
  now rewrite (digit_not_c d Hd), andb_false_r.
Qed.

Lemma duration_prefix_tail c s x :
  c :: s = duration_prefix ++ x -> s = tl duration_prefix ++ x.
Proof. intros H. injection H as _ ->. reflexivity. Qed.

Lemma scan_duration n : forall s,
  (List.length s <= n)%nat ->
  map int (findall duration_pattern s) = duration_from s.
Proof.
  unfold findall.
  induction n as [|n IH]; intros [|c s'] Hn; try (cbn in Hn; lia);
    try reflexivity.
  cbn [scan]. rewrite match_duration. cbn [duration_from].
  unfold duration_here at 1.
  set (t := skipn (List.length duration_prefix) (c :: s')).
  destruct (starts_with duration_prefix (c :: s')
            && negb (Nat.eqb (List.length (take_digits t)) 0)) eqn:E.
  - apply andb_prop in E as [Es Ed].
    pose proof (starts_with_split _ _ Es) as Hs. fold t in Hs.
    pose proof (take_drop_digits t) as Ht.
    pose proof (take_digits_all t) as Hall.
    destruct (take_digits t) as [|d run] eqn:Erun; [discriminate Ed|].
    cbn [forallb] in Hall. apply andb_prop in Hall as [Hd Hrun].
    set (rest := drop_digits t) in *. clearbody rest.
    rewrite <- Ht in Hs. clear Ht Erun Ed Es. clearbody t. clear t.
    apply duration_prefix_tail in Hs. subst s'.
    replace (List.length (c :: tl duration_prefix ++ (d :: run) ++ rest)
             - List.length rest - 1)%nat
      with (List.length (tl duration_prefix ++ d :: run))
      by (repeat (rewrite length_app || cbn [List.length]); lia).
    rewrite app_assoc, scan_skip. cbn [map hd app]. f_equal.
    rewrite IH.
    + rewrite <- app_assoc.
      change ((d :: run) ++ rest) with (d :: run ++ rest).
      rewrite duration_from_inside by exact Hd.
      change (d :: run ++ rest) with ((d :: run) ++ rest).
      rewrite duration_from_digits; [reflexivity|].
      cbn [forallb]. now rewrite Hd, Hrun.
    + cbn [List.length] in Hn. rewrite !length_app in Hn. lia.
  - cbn [app]. apply IH. cbn in Hn; lia.
Qed.

Lemma findall_duration s :
  map int (findall duration_pattern s) = duration_from s.
Proof. apply (scan_duration (List.length s)); lia. Qed.
End DurationFacts.

Section PositionFacts.
Import Re ScraperSpec Aux.

Lemma skipn_length_app (pre s : text) : skipn (List.length pre) (pre ++ s) = s.
Proof. induction pre as [|a pre IH]; [reflexivity | exact IH]. Qed.

Lemma skipn_add_app (pre s : text) k :
  skipn (List.length pre + k) (pre ++ s) = skipn k s.
Proof. induction pre as [|a pre IH]; [reflexivity | exact IH]. Qed.

Lemma digit_at_app_r pre s k :
  digit_at (pre ++ s) (List.length pre + k) = digit_at s k.
Proof.
  unfold digit_at. rewrite nth_error_app2 by lia.
  now replace (List.length pre + k - List.length pre)%nat with k by lia.
Qed.

Lemma digit_at_app_l pre s j :
  (j < List.length pre)%nat -> digit_at (pre ++ s) j = digit_at pre j.
Proof. intros H. unfold digit_at. now rewrite nth_error_app1. Qed.

Lemma digit_at_skipn s k :
  digit_at s k = negb (Nat.eqb (List.length (take_digits (skipn k s))) 0).
Proof.
  revert s; induction k as [|k IH]; intros [|c s]; try reflexivity.
  - cbn. destruct (is_digit c); reflexivity.
  - cbn [skipn]. rewrite <- IH. reflexivity.
Qed.

Lemma ends_with_digit_snoc pre c : ends_with_digit (pre ++ [c]) = is_digit c.
Proof.
  unfold ends_with_digit. rewrite length_app. cbn [List.length].
  replace (List.length pre + 1)%nat with (S (List.length pre)) by lia.
  rewrite <- (Nat.add_0_r (List.length pre)) at 1.
  rewrite digit_at_app_r. reflexivity.
Qed.

Lemma run_starts_at_app pre c s :
  run_starts_at (pre ++ c :: s) (List.length pre)
  = is_digit c && negb (ends_with_digit pre).
Proof.
  unfold run_starts_at, ends_with_digit.
  rewrite <- (Nat.add_0_r (List.length pre)) at 1.
  rewrite digit_at_app_r. cbn [digit_at nth_error].
  destruct (List.length pre) as [|j] eqn:E; [reflexivity|].
  rewrite digit_at_app_l by lia. reflexivity.
Qed.

Lemma throughput_positions s : forall pre,
  flat_map (throughput_at (pre ++ s)) (seq (List.length pre) (List.length s))
  = throughput_from (ends_with_digit pre) s.
Proof.
  induction s as [|c s IH]; intros pre; [reflexivity|].
  cbn [List.length seq flat_map throughput_from]. f_equal.
  - unfold throughput_at.
    rewrite run_starts_at_app, skipn_length_app. reflexivity.
  - replace (pre ++ c :: s) with ((pre ++ [c]) ++ s)
      by (now rewrite <- app_assoc).
    replace (S (List.length pre)) with (List.length (pre ++ [c]))
      by (rewrite length_app; cbn; lia).
    rewrite IH, ends_with_digit_snoc. reflexivity.
Qed.

Lemma throughput_sequence_from s :
  throughput_sequence s = throughput_from false s.
Proof. exact (throughput_positions s []). Qed.

Lemma duration_positions s : forall pre,
  flat_map (duration_at (pre ++ s)) (seq (List.length pre) (List.length s))
  = duration_from s.
Proof.
  induction s as [|c s IH]; intros pre; [reflexivity|].
  cbn [List.length seq flat_map duration_from]. f_equal.
  - unfold duration_at, duration_here.
    rewrite skipn_length_app, digit_at_app_r, skipn_add_app, digit_at_skipn.
    reflexivity.
  - replace (pre ++ c :: s) with ((pre ++ [c]) ++ s)
      by (now rewrite <- app_assoc).
    replace (S (List.length pre)) with (List.length (pre ++ [c]))
      by (rewrite length_app; cbn; lia).
    apply IH.
Qed.

Lemma duration_sequence_from s : duration_sequence s = duration_from s.
Proof. exact (duration_positions s []). Qed.
End PositionFacts.

Section LineFacts.
Import Re ScraperSpec Aux.

Lemma concat_readlines s : List.concat (readlines s) = s.
Proof.
  induction s as [|c s IH]; [reflexivity|].
  cbn [readlines]. destruct (Ascii.eqb c newline).
  - cbn [List.concat app]. now rewrite IH.
  - destruct (readlines s) as [|l ls]; cbn [List.concat app] in *;
      now rewrite <- IH.
Qed.

(** Every line but the last ends with the terminator. *)
Lemma readlines_first s l ls :
  readlines s = l :: ls -> ls = [] \/ exists x, l = x ++ [newline].
Proof.
  revert l ls; induction s as [|c s IH]; intros l ls; [discriminate|].
  cbn [readlines]. destruct (Ascii.eqb_spec c newline) as [->|Hc].
  - intros H; injection H as <- <-. right. now exists [].
  - destruct (readlines s) as [|l' ls'] eqn:E; intros H; injection H as <- <-.
    + now left.
    + destruct (IH l' ls' eq_refl) as [->|[x ->]]; [now left|].
      right. now exists (c :: x).
Qed.

Lemma starts_with_cut l : ~ In newline l -> forall y z,
  starts_with l (y ++ newline :: z) = starts_with l (y ++ [newline]).
Proof.
  induction l as [|a l IH]; intros Hl y z; [reflexivity|].
  assert (Ha : Ascii.eqb a newline = false).
  { apply Ascii.eqb_neq. intros ->. apply Hl. now left. }
  destruct y as [|b y]; cbn [app starts_with].
  - now rewrite Ha.
  - rewrite IH; [reflexivity|]. intros H; apply Hl; now right.
Qed.

Lemma take_digits_cut y z :
  take_digits (y ++ newline :: z) = take_digits (y ++ [newline]).
Proof.
  induction y as [|b y IH]; [reflexivity|].
  cbn [app take_digits]. now rewrite IH.
Qed.

Lemma drop_digits_cut l : ~ In newline l -> forall y z,
  starts_with l (drop_digits (y ++ newline :: z))
  = starts_with l (drop_digits (y ++ [newline])).
Proof.
  intros Hl y z. induction y as [|b y IH].
  - cbn. apply (starts_with_cut l Hl []).
  - cbn [app drop_digits]. destruct (is_digit b); [exact IH|].
    apply (starts_with_cut l Hl (b :: y)).
Qed.

Lemma throughput_suffix_no_newline : ~ In newline throughput_suffix.
Proof. cbn. intros H. repeat (destruct H as [H|H]; [discriminate H|]). exact H. Qed.

Lemma duration_prefix_no_newline : ~ In newline duration_prefix.
Proof. cbn. intros H. repeat (destruct H as [H|H]; [discriminate H|]). exact H. Qed.

(** What is found at the head of a text is found at the head of its
    first line. *)
Lemma throughput_head_cut b c y z :
  (if is_digit c && negb b
      && starts_with throughput_suffix (drop_digits (c :: y ++ newline :: z))
   then [int (take_digits (c :: y ++ newline :: z))] else [])
  = (if is_digit c && negb b
      && starts_with throughput_suffix (drop_digits (c :: y ++ [newline]))
   then [int (take_digits (c :: y ++ [newline]))] else []).
Proof.
  pose proof (drop_digits_cut _ throughput_suffix_no_newline (c :: y) z) as H1.
  pose proof (take_digits_cut (c :: y) z) as H2.
  rewrite <- !app_comm_cons in H1, H2. now rewrite H1, H2.
Qed.

Lemma throughput_lines s : forall b,
  throughput_from b s =
  match readlines s with
  | [] => []
  | l :: ls => throughput_from b l ++ flat_map (throughput_from false) ls
  end.
Proof.
  induction s as [|c s IH]; intros b; [reflexivity|].
  cbn [readlines]. destruct (Ascii.eqb_spec c newline) as [->|Hc].
  - cbn [throughput_from]. change (is_digit newline) with false.
    cbn [andb app]. rewrite (IH false).
    destruct (readlines s) as [|l ls]; reflexivity.
  - cbn [throughput_from]. rewrite (IH (is_digit c)).
    pose proof (concat_readlines s) as Hcat.
    pose proof (readlines_first s) as Hfirst.
    destruct (readlines s) as [|l ls].
    + cbn in Hcat. subst s. cbn [flat_map throughput_from].
      now rewrite !app_nil_r.
    + cbn [List.concat] in Hcat. cbn [throughput_from]. rewrite <- app_assoc.
      f_equal.
      destruct (Hfirst l ls eq_refl) as [->|[x ->]].
      * cbn in Hcat. rewrite app_nil_r in Hcat. now subst s.
      * subst s. rewrite <- app_assoc. cbn [app].
        apply throughput_head_cut.
Qed.

Lemma throughput_from_lines s :
  throughput_from false s = flat_map (throughput_from false) (readlines s).
Proof.
  rewrite throughput_lines. destruct (readlines s); reflexivity.
Qed.
End LineFacts.

Section DurationLineFacts.
Import Re ScraperSpec Aux.

Lemma starts_with_snoc l : ~ In newline l -> forall y,
  starts_with l (y ++ [newline]) = true -> exists y', y = l ++ y'.
Proof.
  induction l as [|a l IH]; intros Hl y H; [now exists y|].
  assert (Ha : Ascii.eqb a newline = false).
  { apply Ascii.eqb_neq. intros ->. apply Hl. now left. }
  destruct y as [|b y]; cbn [app starts_with] in H.
  - now rewrite Ha in H.
  - apply andb_prop in H as [Hab Hy]. apply Ascii.eqb_eq in Hab. subst b.
    destruct (IH (fun H => Hl (or_intror H)) y Hy) as [y' ->].
    now exists y'.
Qed.

Lemma duration_here_cut y z :
  duration_here (y ++ newline :: z) = duration_here (y ++ [newline]).
Proof.
  unfold duration_here.
  rewrite (starts_with_cut _ duration_prefix_no_newline).
  destruct (starts_with duration_prefix (y ++ [newline])) eqn:E;
    [|reflexivity].
  destruct (starts_with_snoc _ duration_prefix_no_newline _ E) as [y' ->].
  rewrite <- !app_assoc, !skipn_length_app, take_digits_cut. reflexivity.
Qed.

Lemma duration_here_newline s : duration_here (newline :: s) = [].
Proof. reflexivity. Qed.

Lemma duration_from_lines s :
  duration_from s = flat_map duration_from (readlines s).
Proof.
  induction s as [|c s IH]; [reflexivity|].
  cbn [readlines duration_from]. rewrite IH.
  destruct (Ascii.eqb_spec c newline) as [->|Hc].
  - reflexivity.
  - pose proof (concat_readlines s) as Hcat.
    pose proof (readlines_first s) as Hfirst.
    destruct (readlines s) as [|l ls].
    + cbn in Hcat. subst s. cbn [flat_map duration_from].
      now rewrite !app_nil_r.
    + cbn [List.concat] in Hcat. cbn [flat_map duration_from].
      rewrite <- app_assoc. f_equal.
      destruct (Hfirst l ls eq_refl) as [->|[x ->]].
      * cbn in Hcat. rewrite app_nil_r in Hcat. now subst s.
      * subst s. rewrite <- app_assoc. cbn [app].
        apply (duration_here_cut (c :: x)).
Qed.

Lemma scrape_lines ls : forall a b,
  fold_left scrape_line ls (a, b)
  = (a ++ flat_map (fun l => map int (findall throughput_pattern l)) ls,
     b ++ flat_map (fun l => map int (findall duration_pattern l)) ls).
Proof.
  induction ls as [|l ls IH]; intros a b; cbn [fold_left flat_map].
  - now rewrite !app_nil_r.
  - unfold scrape_line at 2. now rewrite IH, <- !app_assoc.
Qed.

(** The scraper finds, in a whole file, the two sequences of the
    specification. *)
Lemma scrape_file_sequences a b content :
  scrape_file (a, b) content
  = (a ++ throughput_sequence (list_ascii_of_string content),
     b ++ duration_sequence (list_ascii_of_string content)).
Proof.
  unfold scrape_file. rewrite scrape_lines.
  rewrite throughput_sequence_from, duration_sequence_from.
  rewrite throughput_from_lines, duration_from_lines.
  f_equal; f_equal; apply flat_map_ext; intros l.
  - apply findall_throughput.
  - apply findall_duration.
Qed.
End DurationLineFacts.


(** ** The interpreter monad *)

Section MonadFacts.

Context {A B : Type}.

Lemma bind_ok (c : M A) (k : A -> M B) st b st2 :
  bind c k st = (Ok b, st2) ->
  exists a st1, c st = (Ok a, st1) /\ k a st1 = (Ok b, st2).
Proof.
  unfold bind. destruct (c st) as [[a|e] st1]; [|discriminate].
  intros H. now exists a, st1.
Qed.

Lemma bind_raise (c : M A) (k : A -> M B) st e st2 :
  bind c k st = (Raise e, st2) ->
  c st = (Raise e, st2)
  \/ exists a st1, c st = (Ok a, st1) /\ k a st1 = (Raise e, st2).
Proof.
  unfold bind. destruct (c st) as [[a|e'] st1].
  - intros H. right. now exists a, st1.
  - intros H. left. injection H as -> ->. reflexivity.
Qed.

Lemma bind_of_ok (c : M A) (k : A -> M B) st a st1 :
  c st = (Ok a, st1) -> bind c k st = k a st1.
Proof. unfold bind. now intros ->. Qed.

Lemma bind_of_raise (c : M A) (k : A -> M B) st e st1 :
  c st = (Raise e, st1) -> bind c k st = (Raise e, st1).
Proof. unfold bind. now intros ->. Qed.

End MonadFacts.

(** A loop stops at the first iteration that raises: the iterations after
    it do not run. *)
Lemma for_each_app {A B : Type} (xs ys : list A) (body : B -> A -> M B) acc st :
  for_each (xs ++ ys) body acc st =
  match for_each xs body acc st with
  | (Ok acc', st') => for_each ys body acc' st'
  | (Raise e, st') => (Raise e, st')
  end.
Proof.
  revert acc st; induction xs as [|x xs IH]; intros acc st; [reflexivity|].
  cbn [app for_each]. unfold bind.
  destruct (body acc x st) as [[acc'|e] st']; [apply IH | reflexivity].
Qed.

Lemma for_each_aborts {A B : Type} (pre post : list A) (x : A)
    (body : B -> A -> M B) acc st acc1 st1 e st2 :
  for_each pre body acc st = (Ok acc1, st1) ->
  body acc1 x st1 = (Raise e, st2) ->
  for_each (pre ++ x :: post) body acc st = (Raise e, st2).
Proof.
  intros Hpre Hx. rewrite for_each_app, Hpre. cbn [for_each].
  now apply bind_of_raise.
Qed.

(** ** One algorithm *)

Section Algorithm.

Variable w : World.
Variables dataPath baseDirectory lang : string.

(** [run_algorithm], executed symbolically. *)
Lemma run_algorithm_unfold rpl f st :
  run_algorithm w dataPath baseDirectory lang rpl f st =
  let name := PyStr.stem f in
  let i := engine_invocation dataPath lang name
             (algorithm_location baseDirectory lang f) in
  let tr := st_trace st ++ [EvRun i] in
  match engine w i (st_fs st) with
  | None => (Raise (OSError "dotnet"), MkState (st_fs st) (st_file st) tr)
  | Some fs' =>
      match dict_get (fs_files fs') (algorithm_log name) with
      | None =>
          (Raise (OSError (algorithm_log name)), MkState fs' (st_file st) tr)
      | Some content =>
          (aggregate rpl name (scrape_file ([], []) content),
           MkState fs' (Some (algorithm_log name))
             (tr ++ open_events (st_file st) (algorithm_log name)))
      end
  end.
Proof.
  unfold run_algorithm, range, repetition, subprocess_run, open_into_file,
    aggregate, open_events, bind, log, lift, ret.
  cbn [Nat.sub seq for_each]. unfold bind, ret.
  cbn [st_fs st_file st_trace].
  destruct (engine w _ (st_fs st)) as [fs'|]; [|reflexivity].
  cbn [st_fs st_file st_trace].
  destruct (dict_get (fs_files fs') _) as [content|]; [|reflexivity].
  cbn [st_fs st_file st_trace].
  destruct (st_file st) as [old|]; cbn [st_fs st_file st_trace];
    rewrite <- ?app_assoc; cbn [app];
    destruct (scrape_file ([], []) content) as [dps lens]; cbn [fst snd];
    (destruct (Statistics.mean dps) as [a|e]; [|reflexivity]);
    (destruct (Statistics.mean lens) as [l|e]; reflexivity).
Qed.

End Algorithm.


(** ** Reading traces *)

Lemma invocations_app a b : invocations (a ++ b) = invocations a ++ invocations b.
Proof. apply flat_map_app. Qed.

Lemma opened_app a b :
  opened_for_reading (a ++ b) = opened_for_reading a ++ opened_for_reading b.
Proof. apply flat_map_app. Qed.

Lemma dumps_app a b : dumps (a ++ b) = dumps a ++ dumps b.
Proof. apply flat_map_app. Qed.

Lemma listings_app a b : listings (a ++ b) = listings a ++ listings b.
Proof. apply flat_map_app. Qed.

Lemma discovered_app a b : discovered (a ++ b) = discovered a ++ discovered b.
Proof. unfold discovered. now rewrite listings_app, flat_map_app. Qed.

Lemma open_events_facts previous path :
  invocations (open_events previous path) = []
  /\ opened_for_reading (open_events previous path) = [path]
  /\ dumps (open_events previous path) = []
  /\ listings (open_events previous path) = [].
Proof. destruct previous; repeat split; reflexivity. Qed.

(** ** Dictionaries *)

Lemma keys_dict_set {V : Type} (d : dict V) k v :
  keys (dict_set d k v)
  = if existsb (String.eqb k) (keys d) then keys d else keys d ++ [k].
Proof.
  induction d as [|[k' v'] d IH]; [reflexivity|].
  cbn [dict_set keys map fst existsb] in *. rewrite (String.eqb_sym k k').
  destruct (String.eqb_spec k' k) as [->|Hk]; cbn [orb map fst]; [reflexivity|].
  fold (keys d) in *. fold (keys (dict_set d k v)). rewrite IH.
  destruct (existsb (String.eqb k) (keys d)); reflexivity.
Qed.

Lemma dict_set_values {V : Type} (P : V -> Prop) (d : dict V) k v :
  Forall (fun kv => P (snd kv)) d -> P v ->
  Forall (fun kv => P (snd kv)) (dict_set d k v).
Proof.
  intros Hd Hv. induction Hd as [|[k' v'] d Hk' Hd IH]; cbn [dict_set].
  - now constructor.
  - destruct (String.eqb k' k); constructor; auto.
Qed.

Lemma dict_get_set_same {V : Type} (d : dict V) k v :
  dict_get (dict_set d k v) k = Some v.
Proof.
  induction d as [|[k' v'] d IH]; cbn [dict_set dict_get].
  - now rewrite String.eqb_refl.
  - destruct (String.eqb k' k) eqn:E; cbn [dict_get].
    + now rewrite String.eqb_refl.
    + now rewrite E.
Qed.

Lemma dict_get_set_other {V : Type} (d : dict V) k k' v :
  k <> k' -> dict_get (dict_set d k v) k' = dict_get d k'.
Proof.
  intros Hk. induction d as [|[k0 v0] d IH]; cbn [dict_set dict_get].
  - apply String.eqb_neq in Hk. now rewrite Hk.
  - destruct (String.eqb_spec k0 k) as [->|H0]; cbn [dict_get].
    + apply String.eqb_neq in Hk. now rewrite Hk.
    + now rewrite IH.
Qed.

(** ** Aggregation *)

Lemma sum_exact_spec data : forall total n,
  fold_left (fun acc x => ((fst acc + x)%Z, S (snd acc))) data (total, n)
  = ((total + fold_right Z.add 0%Z data)%Z, (n + List.length data)%nat).
Proof.
  induction data as [|x data IH]; intros total n; cbn [fold_left fold_right List.length fst snd].
  - f_equal; lia.
  - rewrite IH. f_equal; lia.
Qed.

Lemma mean_empty : Statistics.mean [] = Raise StatisticsError.
Proof. reflexivity. Qed.

Lemma mean_nonempty data :
  data <> [] ->
  Statistics.mean data
  = Ok (Statistics.convert
          (Qred (fold_right Z.add 0%Z data # Pos.of_nat (List.length data)))).
Proof.
  intros Hd. unfold Statistics.mean, Statistics.sum_exact.
  rewrite sum_exact_spec. cbn [Z.add Nat.add].
  destruct data as [|x data]; [contradiction|]. reflexivity.
Qed.

Lemma mean_ok_nonempty data v : Statistics.mean data = Ok v -> data <> [].
Proof. intros H ->. discriminate H. Qed.

Lemma convert_value q : Qeq (number_value (Statistics.convert (Qred q))) q.
Proof.
  unfold Statistics.convert.
  destruct (Pos.eqb_spec (Qden (Qred q)) 1) as [Hden|Hden]; cbn [number_value].
  - rewrite <- (Qred_correct q) at 2.
    destruct (Qred q) as [n d]. cbn in Hden |- *. subst d.
    unfold Qeq, inject_Z. reflexivity.
  - apply Qred_correct.
Qed.

Lemma aggregate_ok rpl name acc rpl' :
  aggregate rpl name acc = Ok rpl' ->
  fst acc <> [] /\ snd acc <> []
  /\ exists a l,
       Statistics.mean (fst acc) = Ok a /\ Statistics.mean (snd acc) = Ok l
       /\ rpl' = dict_set rpl name (Metric a (fst acc) l).
Proof.
  unfold aggregate.
  destruct (Statistics.mean (fst acc)) as [a|e] eqn:Ea; [|discriminate].
  destruct (Statistics.mean (snd acc)) as [l|e] eqn:El; [|discriminate].
  intros H; injection H as <-.
  repeat split; eauto using mean_ok_nonempty.
Qed.

Lemma mean_raises data e : Statistics.mean data = Raise e -> e = StatisticsError.
Proof.
  unfold Statistics.mean. destruct (Statistics.sum_exact data) as [total n].
  destruct (n <? 1)%nat; [|discriminate]. now intros H; injection H as <-.
Qed.

Lemma aggregate_empty rpl name acc :
  fst acc = [] \/ snd acc = [] ->
  aggregate rpl name acc = Raise StatisticsError.
Proof.
  unfold aggregate. intros [H|H]; rewrite H.
  - reflexivity.
  - destruct (Statistics.mean (fst acc)) as [a|e] eqn:E; [reflexivity|].
    now rewrite (mean_raises _ _ E).
Qed.


(** ** The loop over the files of one directory *)

Section DirectoryLoop.

Variable w : World.
Variables dataPath baseDirectory : string.

Lemma for_each_cons {A B : Type} (x : A) xs (body : B -> A -> M B) acc st :
  for_each (x :: xs) body acc st =
  match body acc x st with
  | (Ok acc', st') => for_each xs body acc' st'
  | (Raise e, st') => (Raise e, st')
  end.
Proof. reflexivity. Qed.

Lemma loop_facts_nil files : loop_facts dataPath baseDirectory files [] 0 0.
Proof. constructor; try reflexivity. cbn; lia. Qed.

(** The events of one candidate, then the events of the candidates behind
    it. *)
Lemma loop_facts_cons f files evs1 evs2 (opened1 : bool) k k' :
  invocations evs1 = [invocation_of dataPath (baseDirectory, f)] ->
  opened_for_reading evs1 = (if opened1 then [log_of (baseDirectory, f)] else []) ->
  listings evs1 = [] -> dumps evs1 = [] ->
  (opened1 = false -> evs2 = [] /\ k = O /\ k' = O) ->
  loop_facts dataPath baseDirectory files evs2 k k' ->
  loop_facts dataPath baseDirectory (f :: files) (evs1 ++ evs2)
    (S k) (if opened1 then S k' else O).
Proof.
  intros Hi Ho Hl Hd Hstop [Fl Fd Fi Fo Fb].
  constructor.
  - now rewrite listings_app, Hl, Fl.
  - now rewrite dumps_app, Hd, Fd.
  - now rewrite invocations_app, Hi, Fi.
  - rewrite opened_app, Ho, Fo. destruct opened1; [reflexivity|].
    destruct (Hstop eq_refl) as (-> & -> & ->). reflexivity.
  - cbn [List.length]. destruct opened1; lia.
Qed.

Lemma nonempty_samples_set rpl name a dps l :
  dps <> [] -> nonempty_samples rpl ->
  nonempty_samples (dict_set rpl name (Metric a dps l)).
Proof.
  intros Hd Hr. unfold nonempty_samples.
  apply (dict_set_values (fun m => samples m <> [])); assumption.
Qed.

Lemma insert_keys_cons ks name names :
  insert_keys ks (name :: names)
  = insert_keys (if existsb (String.eqb name) ks then ks else ks ++ [name]) names.
Proof. reflexivity. Qed.

Lemma directory_loop files : forall rpl st r st',
  for_each files (visit_file w dataPath baseDirectory (language_name baseDirectory)) rpl st = (r, st') ->
  exists evs k k',
    st_trace st' = st_trace st ++ evs
    /\ loop_facts dataPath baseDirectory (filter is_algorithm_file files) evs k k'
    /\ forall rpl', r = Ok rpl' ->
         k = List.length (filter is_algorithm_file files)
         /\ k' = List.length (filter is_algorithm_file files)
         /\ keys rpl'
            = insert_keys (keys rpl)
                (map PyStr.stem (filter is_algorithm_file files))
         /\ (nonempty_samples rpl -> nonempty_samples rpl').
Proof.
  induction files as [|f files IH]; intros rpl st r st' H.
  - injection H as <- <-. exists [], O, O. rewrite app_nil_r.
    split; [reflexivity|]. split; [apply loop_facts_nil|].
    intros rpl' Hr; injection Hr as <-. auto.
  - rewrite for_each_cons in H. unfold visit_file at 1 in H.
    cbn [filter]. destruct (is_algorithm_file f) eqn:Ef.
    + rewrite run_algorithm_unfold in H. cbv zeta in H.
      set (i := engine_invocation dataPath (language_name baseDirectory) (PyStr.stem f)
                  (algorithm_location baseDirectory (language_name baseDirectory) f)) in *.
      assert (Hi : invocations [EvRun i] = [invocation_of dataPath (baseDirectory, f)])
        by reflexivity.
      destruct (engine w i (st_fs st)) as [fs'|].
      2:{ injection H as <- <-. exists [EvRun i], 1%nat, O. cbn [st_trace].
          split; [reflexivity|]. split; [|discriminate].
          rewrite <- (app_nil_r [EvRun i]).
          apply (loop_facts_cons f _ [EvRun i] [] false O O); auto.
          apply loop_facts_nil. }
      destruct (dict_get (fs_files fs') (algorithm_log (PyStr.stem f)))
        as [content|].
      2:{ injection H as <- <-. exists [EvRun i], 1%nat, O. cbn [st_trace].
          split; [reflexivity|]. split; [|discriminate].
          rewrite <- (app_nil_r [EvRun i]).
          apply (loop_facts_cons f _ [EvRun i] [] false O O); auto.
          apply loop_facts_nil. }
      set (evs1 := EvRun i :: open_events (st_file st) (algorithm_log (PyStr.stem f))).
      destruct (open_events_facts (st_file st) (algorithm_log (PyStr.stem f)))
        as (Oi & Oo & Od & Ol).
      assert (E1 : invocations evs1 = [invocation_of dataPath (baseDirectory, f)])
        by (unfold evs1; change (EvRun i :: ?x) with ([EvRun i] ++ x);
            now rewrite invocations_app, Oi).
      assert (E2 : opened_for_reading evs1 = [log_of (baseDirectory, f)])
        by (unfold evs1; change (EvRun i :: ?x) with ([EvRun i] ++ x);
            now rewrite opened_app, Oo).
      assert (E3 : listings evs1 = [])
        by (unfold evs1; change (EvRun i :: ?x) with ([EvRun i] ++ x);
            now rewrite listings_app, Ol).
      assert (E4 : dumps evs1 = [])
        by (unfold evs1; change (EvRun i :: ?x) with ([EvRun i] ++ x);
            now rewrite dumps_app, Od).
      destruct (aggregate rpl (PyStr.stem f) (scrape_file ([], []) content))
        as [rpl1|e] eqn:Eagg.
      * apply IH in H as (evs2 & k & k' & Htr & Hf & Hok).
        exists (evs1 ++ evs2), (S k), (S k'). cbn [st_trace] in Htr.
        split; [rewrite Htr; unfold evs1; now rewrite <- !app_assoc|].
        split.
        -- apply (loop_facts_cons f _ evs1 evs2 true k k'); auto; discriminate.
        -- intros rpl' Hr. destruct (Hok rpl' Hr) as (-> & -> & Hk & Hn).
           apply aggregate_ok in Eagg as (Hdps & _ & a & l & _ & _ & ->).
           repeat split; try reflexivity.
           ++ rewrite Hk, keys_dict_set. cbn [map]. now rewrite insert_keys_cons.
           ++ intros Hrpl. apply Hn. now apply nonempty_samples_set.
      * injection H as <- <-. exists evs1, 1%nat, 1%nat. cbn [st_trace].
        split; [unfold evs1; now rewrite <- !app_assoc|].
        split; [|discriminate].
        rewrite <- (app_nil_r evs1).
        apply (loop_facts_cons f _ evs1 [] true O O); auto; try discriminate.
        apply loop_facts_nil.
    + cbv [ret] in H. apply IH in H. exact H.
Qed.

End DirectoryLoop.


(** ** The loop over the directories *)

Section Directories.

Variable w : World.
Variable dataPath : string.

Lemma language_name_ok baseDirectory lang :
  language baseDirectory = Ok lang -> language_name baseDirectory = lang.
Proof. unfold language_name. now intros ->. Qed.

Lemma run_language_facts results baseDirectory lang st r st' :
  language baseDirectory = Ok lang ->
  run_language w dataPath results baseDirectory st = (r, st') ->
  match dict_get (fs_dirs (st_fs st)) baseDirectory with
  | None => r = Raise (OSError baseDirectory) /\ st' = st
  | Some entries =>
      exists evs k k',
        st_trace st' = st_trace st ++ EvListdir baseDirectory entries :: evs
        /\ loop_facts dataPath baseDirectory (candidates entries) evs k k'
        /\ forall results', r = Ok results' ->
             k = List.length (candidates entries)
             /\ k' = List.length (candidates entries)
             /\ exists rpl,
                  results' = dict_set results lang rpl
                  /\ keys rpl = insert_keys [] (discovery entries)
                  /\ nonempty_samples rpl
  end.
Proof.
  intros Hlang H. unfold run_language in H.
  rewrite (bind_of_ok _ _ st lang st) in H by (unfold lift; now rewrite Hlang).
  destruct (dict_get (fs_dirs (st_fs st)) baseDirectory) as [entries|] eqn:Ed.
  2:{ rewrite (bind_of_raise _ _ st (OSError baseDirectory) st) in H
        by (unfold listdir; now rewrite Ed).
      injection H as <- <-. auto. }
  set (st1 := MkState (st_fs st) (st_file st)
                (st_trace st ++ [EvListdir baseDirectory entries])).
  rewrite (bind_of_ok _ _ st entries st1) in H
    by (unfold listdir; now rewrite Ed).
  rewrite <- (language_name_ok _ _ Hlang) in H at 1.
  destruct (for_each (sorted entries)
              (visit_file w dataPath baseDirectory (language_name baseDirectory))
              [] st1) as [[rpl|e] st2] eqn:Eloop;
    [rewrite (bind_of_ok _ _ _ _ _ Eloop) in H
    |rewrite (bind_of_raise _ _ _ _ _ Eloop) in H];
    injection H as <- <-;
    apply directory_loop in Eloop as (evs & k & k' & Htr & Hf & Hok);
    cbn [st_trace st1] in Htr; exists evs, k, k';
    (split; [rewrite Htr, <- app_assoc; reflexivity|]);
    (split; [exact Hf|]).
  - intros results' Hr; injection Hr as <-.
    destruct (Hok rpl eq_refl) as (-> & -> & Hk & Hn).
    repeat split. exists rpl. repeat split; [exact Hk|].
    apply Hn. constructor.
  - discriminate.
Qed.

Lemma run_facts_nil : run_facts dataPath [] 0 0.
Proof. constructor; try reflexivity; [constructor | cbn; lia]. Qed.

(** One directory's events as facts about the run. *)
Lemma run_facts_directory baseDirectory entries evs k k' :
  In baseDirectory base_directories ->
  loop_facts dataPath baseDirectory (candidates entries) evs k k' ->
  run_facts dataPath (EvListdir baseDirectory entries :: evs) k k'.
Proof.
  intros Hb [Fl Fd Fi Fo Fb].
  assert (Hl : listings (EvListdir baseDirectory entries :: evs)
               = [(baseDirectory, entries)])
    by (change (EvListdir baseDirectory entries :: evs)
          with ([EvListdir baseDirectory entries] ++ evs);
        now rewrite listings_app, Fl).
  assert (Hd : discovered (EvListdir baseDirectory entries :: evs)
               = map (pair baseDirectory) (candidates entries))
    by (unfold discovered; rewrite Hl; cbn; now rewrite app_nil_r).
  constructor.
  - exact Fd.
  - rewrite Hl. constructor; [exact Hb | constructor].
  - rewrite Hd, firstn_map. exact Fi.
  - rewrite Hd, firstn_map. exact Fo.
  - rewrite Hd, length_map. exact Fb.
Qed.

(** A complete part of a run followed by more of the run. *)
Lemma run_facts_app evs1 evs2 k k' :
  run_facts dataPath evs1 (List.length (discovered evs1))
    (List.length (discovered evs1)) ->
  run_facts dataPath evs2 k k' ->
  run_facts dataPath (evs1 ++ evs2)
    (List.length (discovered evs1) + k) (List.length (discovered evs1) + k').
Proof.
  intros [Ad Al Ai Ao Ab] [Bd Bl Bi Bo Bb].
  rewrite firstn_all in Ai, Ao.
  constructor.
  - now rewrite dumps_app, Ad, Bd.
  - rewrite listings_app. now apply Forall_app.
  - now rewrite invocations_app, discovered_app, firstn_app_2, map_app, Ai, Bi.
  - now rewrite opened_app, discovered_app, firstn_app_2, map_app, Ao, Bo.
  - rewrite discovered_app, length_app. lia.
Qed.

End Directories.


(** ** The whole run *)

Section WholeRun.

Variable w : World.

Lemma run_language_run_facts results baseDirectory lang st r st' :
  In baseDirectory base_directories ->
  language baseDirectory = Ok lang ->
  run_language w (data_path w) results baseDirectory st = (r, st') ->
  exists evs k k',
    st_trace st' = st_trace st ++ evs
    /\ run_facts (data_path w) evs k k'
    /\ forall results', r = Ok results' ->
         k = List.length (discovered evs) /\ k' = List.length (discovered evs)
         /\ exists entries rpl,
              listings evs = [(baseDirectory, entries)]
              /\ results' = dict_set results lang rpl
              /\ keys rpl = insert_keys [] (discovery entries)
              /\ nonempty_samples rpl.
Proof.
  intros Hb Hlang H. apply (run_language_facts _ _ _ _ lang) in H; [|exact Hlang].
  destruct (dict_get (fs_dirs (st_fs st)) baseDirectory) as [entries|].
  - destruct H as (evs & k & k' & Htr & Hf & Hok).
    exists (EvListdir baseDirectory entries :: evs), k, k'.
    split; [exact Htr|]. split; [now apply run_facts_directory|].
    intros results' Hr. destruct (Hok results' Hr) as (-> & -> & rpl & Hres & Hk & Hn).
    assert (Hl : listings (EvListdir baseDirectory entries :: evs)
                 = [(baseDirectory, entries)]).
    { change (EvListdir baseDirectory entries :: evs)
        with ([EvListdir baseDirectory entries] ++ evs).
      rewrite listings_app. destruct Hf as [-> _ _ _ _]. reflexivity. }
    assert (Hd : List.length (discovered (EvListdir baseDirectory entries :: evs))
                 = List.length (candidates entries)).
    { unfold discovered. rewrite Hl. cbn. now rewrite app_nil_r, length_map. }
    rewrite Hd. repeat split. exists entries, rpl. auto.
  - destruct H as [-> ->]. exists [], O, O. rewrite app_nil_r.
    split; [reflexivity|]. split; [apply run_facts_nil | discriminate].
Qed.

Lemma benchmark_all_facts st r st' :
  benchmark_all w st = (r, st') ->
  exists evs k k',
    st_trace st' = st_trace st ++ evs
    /\ run_facts (data_path w) evs k k'
    /\ forall results, r = Ok results ->
         k = List.length (discovered evs) /\ k' = List.length (discovered evs)
         /\ exists entries1 entries2 rpl1 rpl2,
              listings evs = [("Algorithm.CSharp/Benchmarks", entries1);
                              ("Algorithm.Python/Benchmarks", entries2)]
              /\ results = [("CSharp", rpl1); ("Python", rpl2)]
              /\ keys rpl1 = insert_keys [] (discovery entries1)
              /\ keys rpl2 = insert_keys [] (discovery entries2)
              /\ nonempty_samples rpl1 /\ nonempty_samples rpl2.
Proof.
  unfold benchmark_all, base_directories. rewrite for_each_cons.
  destruct (run_language w (data_path w) [] "Algorithm.CSharp/Benchmarks" st)
    as [[res1|e1] st1] eqn:E1;
    apply (run_language_run_facts _ _ "CSharp") in E1
      as (evs1 & k1 & k1' & Htr1 & Hf1 & Hok1);
    try reflexivity; try (now left).
  2:{ intros H; injection H as <- <-. exists evs1, k1, k1'.
      split; [exact Htr1|]. split; [exact Hf1 | discriminate]. }
  destruct (Hok1 res1 eq_refl) as (-> & -> & entries1 & rpl1 & Hl1 & -> & Hk1 & Hn1).
  rewrite for_each_cons.
  destruct (run_language w (data_path w) _ "Algorithm.Python/Benchmarks" st1)
    as [[res2|e2] st2] eqn:E2;
    apply (run_language_run_facts _ _ "Python") in E2
      as (evs2 & k2 & k2' & Htr2 & Hf2 & Hok2);
    try reflexivity; try (now right; left).
  2:{ intros H; injection H as <- <-.
      exists (evs1 ++ evs2), (List.length (discovered evs1) + k2)%nat,
        (List.length (discovered evs1) + k2')%nat.
      split; [now rewrite Htr2, Htr1, app_assoc|].
      split; [now apply run_facts_app | discriminate]. }
  destruct (Hok2 res2 eq_refl) as (-> & -> & entries2 & rpl2 & Hl2 & -> & Hk2 & Hn2).
  cbn [for_each ret]. intros H; injection H as <- <-.
  exists (evs1 ++ evs2),
    (List.length (discovered evs1) + List.length (discovered evs2))%nat,
    (List.length (discovered evs1) + List.length (discovered evs2))%nat.
  split; [now rewrite Htr2, Htr1, app_assoc|].
  split; [now apply run_facts_app|].
  intros results Hr; injection Hr as <-.
  rewrite discovered_app, length_app. repeat split.
  exists entries1, entries2, rpl1, rpl2.
  rewrite listings_app, Hl1, Hl2. repeat split; auto.
Qed.

(** The script either raises without having written anything, or ends by
    writing the table once. *)
Lemma run_script_facts r st' :
  run_script w = (r, st') ->
  exists evs k k',
    run_facts (data_path w) evs k k'
    /\ ((exists e, r = Raise e /\ st_trace st' = evs)
        \/ (r = Ok tt
            /\ k = List.length (discovered evs)
            /\ k' = List.length (discovered evs)
            /\ exists entries1 entries2 rpl1 rpl2,
                 st_trace st' =
                   evs ++ [EvOpen output_file "w";
                           EvDump output_file
                             (json_of_results
                                [("CSharp", rpl1); ("Python", rpl2)]);
                           EvClose output_file]
                 /\ listings evs = [("Algorithm.CSharp/Benchmarks", entries1);
                                    ("Algorithm.Python/Benchmarks", entries2)]
                 /\ keys rpl1 = insert_keys [] (discovery entries1)
                 /\ keys rpl2 = insert_keys [] (discovery entries2)
                 /\ nonempty_samples rpl1 /\ nonempty_samples rpl2)).
Proof.
  unfold run_script, main. intros H.
  destruct (benchmark_all w (initial_state w)) as [[results|e] st1] eqn:Eb;
    [rewrite (bind_of_ok _ _ _ _ _ Eb) in H
    |rewrite (bind_of_raise _ _ _ _ _ Eb) in H];
    apply benchmark_all_facts in Eb as (evs & k & k' & Htr & Hf & Hok);
    cbn [initial_state st_trace app] in Htr; exists evs, k, k';
    (split; [exact Hf|]).
  - destruct (Hok results eq_refl)
      as (-> & -> & entries1 & entries2 & rpl1 & rpl2 & Hl & -> & H1 & H2 & N1 & N2).
    unfold dump_to in H. destruct (writable w output_file).
    + right. unfold bind, log in H. cbn [st_fs st_file st_trace] in H.
      injection H as <- <-. cbn [st_trace]. rewrite Htr.
      repeat split. exists entries1, entries2, rpl1, rpl2.
      rewrite <- !app_assoc. repeat split; auto.
    + left. injection H as <- <-. eauto.
  - left. injection H as <- <-. eauto.
Qed.

End WholeRun.

(** ** Strings *)

Section StringFacts.

Lemma ascii_compare_N a b :
  Ascii.compare a b = N.compare (N_of_ascii a) (N_of_ascii b).
Proof. reflexivity. Qed.

Lemma string_le_trans a : forall b c,
  PyStr.le a b = true -> PyStr.le b c = true -> PyStr.le a c = true.
Proof.
  unfold PyStr.le, String.leb.
  induction a as [|x a IH]; intros [|y b] [|z c]; cbn [String.compare];
    try reflexivity; try discriminate.
  rewrite !ascii_compare_N.
  destruct (N.compare_spec (N_of_ascii x) (N_of_ascii y)) as [Exy|Lxy|Gxy];
    destruct (N.compare_spec (N_of_ascii y) (N_of_ascii z)) as [Eyz|Lyz|Gyz];
    try discriminate;
    destruct (N.compare_spec (N_of_ascii x) (N_of_ascii z)) as [Exz|Lxz|Gxz];
    try reflexivity; try lia; try (intros; discriminate).
  apply IH.
Qed.

Lemma substring_all s : substring 0 (String.length s) s = s.
Proof. induction s as [|c s IH]; cbn; [reflexivity | now rewrite IH]. Qed.

Lemma substring_skip b s m :
  substring (String.length b) m (b ++ s) = substring 0 m s.
Proof. induction b as [|c b IH]; [reflexivity | exact IH]. Qed.

Lemma substring_prefix b s :
  substring 0 (String.length b) (b ++ s) = b.
Proof. induction b as [|c b IH]; cbn; [now destruct s | now rewrite IH]. Qed.

Lemma length_append a b :
  String.length (a ++ b) = (String.length a + String.length b)%nat.
Proof. induction a as [|c a IH]; cbn; [reflexivity | now rewrite IH]. Qed.

Lemma substring_split s : forall k,
  (k <= String.length s)%nat ->
  s = (substring 0 k s ++ substring k (String.length s - k) s)%string.
Proof.
  induction s as [|c s IH]; intros [|k] Hk; cbn in Hk |- *; try lia;
    try reflexivity.
  - now rewrite substring_all.
  - f_equal. apply IH. lia.
Qed.

(** [endswith] is what its name says. *)
Lemma endswith_iff s suffix :
  PyStr.endswith s suffix = true <-> exists b, s = (b ++ suffix)%string.
Proof.
  unfold PyStr.endswith. split.
  - intros H. apply andb_prop in H as [Hlen Heq].
    apply Nat.leb_le in Hlen. apply String.eqb_eq in Heq.
    exists (substring 0 (String.length s - String.length suffix) s).
    pose proof (substring_split s (String.length s - String.length suffix)) as Hs.
    replace (String.length s - (String.length s - String.length suffix))%nat
      with (String.length suffix) in Hs by lia.
    rewrite Heq in Hs. apply Hs. lia.
  - intros [b ->]. rewrite length_append.
    replace (String.length b + String.length suffix - String.length suffix)%nat
      with (String.length b) by lia.
    rewrite substring_skip, substring_all, String.eqb_refl.
    apply andb_true_intro. split; [apply Nat.leb_le; lia | reflexivity].
Qed.

Lemma is_algorithm_file_iff f :
  is_algorithm_file f = true
  <-> (exists b, f = (b ++ "py")%string) \/ (exists b, f = (b ++ "cs")%string).
Proof.
  unfold is_algorithm_file, PyStr.endswith_any. cbn [existsb].
  rewrite orb_false_r, orb_true_iff, !endswith_iff. reflexivity.
Qed.

Lemma rfind_dot_append base ext :
  PyStr.rfind_dot ext = None ->
  PyStr.rfind_dot (base ++ "." ++ ext) = Some (String.length base).
Proof.
  intros Hext. induction base as [|c base IH].
  - cbn. now rewrite Hext.
  - change (String c base ++ "." ++ ext)%string
      with (String c (base ++ "." ++ ext)).
    cbn [PyStr.rfind_dot String.length]. now rewrite IH.
Qed.

(** [stem] takes the extension off. *)
Lemma stem_extension base ext :
  base <> "" -> ext <> "" -> PyStr.rfind_dot ext = None ->
  PyStr.stem (base ++ "." ++ ext) = base.
Proof.
  intros Hb He Hdot. unfold PyStr.stem. rewrite rfind_dot_append by exact Hdot.
  rewrite !length_append.
  assert (0 < String.length base)%nat by (destruct base; [contradiction | cbn; lia]).
  assert (0 < String.length ext)%nat by (destruct ext; [contradiction | cbn; lia]).
  replace (0 <? String.length base)%nat with true
    by (symmetry; now apply Nat.ltb_lt).
  replace (String.length base <?
           String.length base + (String.length "." + String.length ext) - 1)%nat
    with true by (symmetry; apply Nat.ltb_lt; cbn; lia).
  cbn [andb]. apply substring_prefix.
Qed.

End StringFacts.

(** ** Discovery *)

Section DiscoveryFacts.

Lemma candidates_sorted entries :
  StronglySorted (fun a b => PyStr.le a b = true) (candidates entries).
Proof.
  unfold candidates, sorted.
  assert (Hs : StronglySorted (fun a b => PyStr.le a b = true)
                 (StringSort.sort entries)).
  { apply Sorted_StronglySorted.
    - intros a b c. apply string_le_trans.
    - apply StringSort.Sorted_sort. }
  induction Hs as [|a l Hl IH Ha]; cbn [filter]; [constructor|].
  destruct (is_algorithm_file a); [|exact IH].
  constructor; [exact IH|].
  rewrite Forall_forall in *. intros x Hx. apply Ha.
  now apply filter_In in Hx.
Qed.

Lemma filter_permutation {A : Type} (p : A -> bool) l l' :
  Permutation l l' -> Permutation (filter p l) (filter p l').
Proof.
  induction 1 as [|x l l' _ IH|x y l|l l' l'' _ IH1 _ IH2]; cbn [filter].
  - constructor.
  - destruct (p x); [now constructor | exact IH].
  - destruct (p x), (p y); try reflexivity. constructor.
  - now transitivity (filter p l').
Qed.

Lemma candidates_permutation entries :
  Permutation (candidates entries) (filter is_algorithm_file entries).
Proof.
  unfold candidates, sorted. apply filter_permutation.
  symmetry. apply StringSort.Permuted_sort.
Qed.

(** The loop over a directory runs exactly the candidates. *)
Lemma loop_runs_candidates w dataPath baseDirectory lang files : forall rpl st,
  for_each files (visit_file w dataPath baseDirectory lang) rpl st
  = for_each (filter is_algorithm_file files)
      (run_algorithm w dataPath baseDirectory lang) rpl st.
Proof.
  induction files as [|f files IH]; intros rpl st; [reflexivity|].
  cbn [filter]. rewrite for_each_cons. unfold visit_file at 1.
  destruct (is_algorithm_file f).
  - rewrite for_each_cons.
    destruct (run_algorithm w dataPath baseDirectory lang rpl f st)
      as [[rpl'|e] st']; [apply IH | reflexivity].
  - cbv [ret]. apply IH.
Qed.

End DiscoveryFacts.

(** ** Occurrences *)

Section OccurrenceFacts.

Import Re ScraperSpec Aux.

Lemma digit_at_length_lt s i : digit_at s i = true -> (i < List.length s)%nat.
Proof.
  unfold digit_at. destruct (nth_error s i) eqn:E; [|discriminate].
  intros _. apply nth_error_Some. congruence.
Qed.

Lemma digit_at_firstn s i j :
  (j < i)%nat -> digit_at (firstn i s) j = digit_at s j.
Proof. intros H. unfold digit_at. now rewrite nth_error_firstn, (proj2 (Nat.ltb_lt j i) H). Qed.

Lemma take_digits_nil_iff s : take_digits s = [] <-> digit_at s 0 = false.
Proof.
  destruct s as [|c s]; cbn; [tauto|].
  destruct (is_digit c); split; congruence.
Qed.

Lemma drop_digits_fixed s : digit_at s 0 = false -> drop_digits s = s.
Proof. destruct s as [|c s]; cbn; [reflexivity|]. now intros ->. Qed.

Lemma throughput_suffix_not_digit post :
  digit_at (throughput_suffix ++ post) 0 = false.
Proof. reflexivity. Qed.

(** At every position: an integer is found there exactly when an
    occurrence stands there, and it is the integer of its digits. *)
Lemma throughput_at_spec s i :
  (exists run, throughput_occurrence s i run /\ throughput_at s i = [int run])
  \/ ((forall run, ~ throughput_occurrence s i run) /\ throughput_at s i = []).
Proof.
  unfold throughput_at.
  destruct (run_starts_at s i
            && starts_with throughput_suffix (drop_digits (skipn i s))) eqn:E.
  - left. apply andb_prop in E as [Hstart Hsuf].
    unfold run_starts_at in Hstart. apply andb_prop in Hstart as [Hd Hprev].
    exists (take_digits (skipn i s)). split; [|reflexivity].
    exists (firstn i s),
      (skipn (List.length throughput_suffix) (drop_digits (skipn i s))).
    pose proof (digit_at_length_lt _ _ Hd) as Hi.
    repeat split.
    + rewrite <- (starts_with_split _ _ Hsuf), take_drop_digits.
      now rewrite firstn_skipn.
    + rewrite length_firstn. lia.
    + rewrite digit_at_skipn in Hd.
      destruct (take_digits (skipn i s)); [discriminate Hd | discriminate].
    + apply take_digits_all.
    + rewrite length_firstn, Nat.min_l by lia.
      destruct i as [|j]; [reflexivity|].
      apply negb_true_iff in Hprev.
      replace (S j - 1)%nat with j by lia.
      rewrite digit_at_firstn by lia. exact Hprev.
  - right. split; [|reflexivity].
    intros run (pre & post & -> & <- & Hne & Hall & Hpre).
    rewrite skipn_length_app in E.
    rewrite drop_digits_app in E by exact Hall.
    rewrite drop_digits_fixed in E by apply throughput_suffix_not_digit.
    rewrite starts_with_app, andb_true_r in E.
    destruct run as [|d run]; [contradiction|].
    cbn [forallb] in Hall. apply andb_prop in Hall as [Hd _].
    change ((d :: run) ++ throughput_suffix ++ post)
      with (d :: run ++ throughput_suffix ++ post) in E.
    rewrite run_starts_at_app, Hd in E. unfold ends_with_digit in E.
    destruct (List.length pre) as [|j] eqn:Ej; [discriminate E|].
    replace (S j - 1)%nat with j in Hpre by lia.
    rewrite Hpre in E. discriminate E.
Qed.

Lemma duration_at_spec s i :
  (exists run, duration_occurrence s i run /\ duration_at s i = [int run])
  \/ ((forall run, ~ duration_occurrence s i run) /\ duration_at s i = []).
Proof.
  unfold duration_at.
  destruct (starts_with duration_prefix (skipn i s)
            && digit_at s (i + List.length duration_prefix)) eqn:E.
  - left. apply andb_prop in E as [Hpre Hd].
    set (t := skipn (i + List.length duration_prefix) s).
    exists (take_digits t). split; [|reflexivity].
    exists (firstn i s), (drop_digits t).
    pose proof (digit_at_length_lt _ _ Hd) as Hi.
    assert (Ht : skipn (List.length duration_prefix) (skipn i s) = t)
      by (unfold t; now rewrite skipn_skipn, Nat.add_comm).
    repeat split.
    + rewrite take_drop_digits, <- Ht, <- (starts_with_split _ _ Hpre).
      now rewrite firstn_skipn.
    + rewrite length_firstn. lia.
    + rewrite digit_at_skipn in Hd. fold t in Hd.
      destruct (take_digits t); [discriminate Hd | discriminate].
    + apply take_digits_all.
    + destruct (drop_digits t) as [|c r] eqn:Ed; [reflexivity|].
      cbn. exact (drop_digits_head _ _ _ Ed).
  - right. split; [|reflexivity].
    intros run (pre & post & -> & <- & Hne & Hall & Hpost).
    rewrite skipn_length_app, starts_with_app, digit_at_app_r in E.
    rewrite <- (Nat.add_0_r (List.length duration_prefix)) in E.
    rewrite digit_at_app_r in E.
    destruct run as [|d run]; [contradiction|].
    cbn [forallb] in Hall. apply andb_prop in Hall as [Hd _].
    cbn in E. rewrite Hd in E. discriminate E.
Qed.

(** The integer found behind the duration prefix is the whole run. *)
Lemma duration_occurrence_unique s i run run' :
  duration_occurrence s i run -> duration_occurrence s i run' -> run = run'.
Proof.
  intros (pre & post & Hs & Hi & _ & Hall & Hpost)
         (pre' & post' & Hs' & Hi' & _ & Hall' & Hpost').
  assert (Ht : take_digits (skipn (i + List.length duration_prefix) s) = run).
  { rewrite Hs, <- Hi, app_assoc.
    replace (List.length pre + List.length duration_prefix)%nat
      with (List.length (pre ++ duration_prefix)) by apply length_app.
    rewrite skipn_length_app, take_digits_app by exact Hall.
    apply take_digits_nil_iff in Hpost. now rewrite Hpost, app_nil_r. }
  rewrite <- Ht, Hs', <- Hi', app_assoc.
  replace (List.length pre' + List.length duration_prefix)%nat
    with (List.length (pre' ++ duration_prefix)) by apply length_app.
  rewrite skipn_length_app, take_digits_app by exact Hall'.
  apply take_digits_nil_iff in Hpost'. now rewrite Hpost', app_nil_r.
Qed.

Lemma throughput_occurrence_unique s i run run' :
  throughput_occurrence s i run -> throughput_occurrence s i run' -> run = run'.
Proof.
  intros (pre & post & Hs & Hi & _ & Hall & _)
         (pre' & post' & Hs' & Hi' & _ & Hall' & _).
  assert (Ht : take_digits (skipn i s) = run).
  { rewrite Hs, <- Hi, skipn_length_app, take_digits_app by exact Hall.
    now rewrite app_nil_r. }
  rewrite <- Ht, Hs', <- Hi', skipn_length_app, take_digits_app by exact Hall'.
  now rewrite app_nil_r.
Qed.

End OccurrenceFacts.

(* ------------------------------------------------------------------ *)
(** * The claims *)

Section Claims.

Import ScraperSpec.

(** ** One algorithm, from the engine's log to the table entry *)

Lemma run_algorithm_result w dataPath baseDirectory lang rpl f st fs' content :
  engine w (engine_invocation dataPath lang (PyStr.stem f)
              (algorithm_location baseDirectory lang f)) (st_fs st) = Some fs' ->
  dict_get (fs_files fs') (algorithm_log (PyStr.stem f)) = Some content ->
  fst (run_algorithm w dataPath baseDirectory lang rpl f st)
  = aggregate rpl (PyStr.stem f)
      (throughput_sequence (list_ascii_of_string content),
       duration_sequence (list_ascii_of_string content)).
Proof.
  intros He Hl. rewrite run_algorithm_unfold. cbv zeta. rewrite He, Hl.
  cbn [fst]. now rewrite scrape_file_sequences.
Qed.

Lemma mean_value data :
  data <> [] ->
  exists v, Statistics.mean data = Ok v
    /\ Qeq (number_value v)
         (inject_Z (fold_right Z.add 0%Z data)
          / inject_Z (Z.of_nat (List.length data))).
Proof.
  intros Hd. rewrite (mean_nonempty data Hd). eexists. split; [reflexivity|].
  rewrite convert_value, Qmake_Qdiv.
  replace (Z.pos (Pos.of_nat (List.length data)))
    with (Z.of_nat (List.length data)); [reflexivity|].
  destruct data as [|x data]; [contradiction|].
  cbn [List.length]. lia.
Qed.

(** C2.  For every log text the scraper returns, as the throughput
    sequence, one integer per occurrence of a run of digits immediately
    followed by "k data points per second" and, as the duration sequence,
    one integer per occurrence of " completed in " immediately followed by
    a run of digits, in the order of the text; the two lines
    "42k data points per second" and "Backtest completed in 17 seconds"
    give [42] and [17]. *)
Theorem scraper_returns_one_integer_per_occurrence :
  (forall content : string,
      scrape_file ([], []) content
      = (flat_map (throughput_at (list_ascii_of_string content))
           (positions (list_ascii_of_string content)),
         flat_map (duration_at (list_ascii_of_string content))
           (positions (list_ascii_of_string content))))
  /\ (forall s i,
        (exists run,
            throughput_occurrence s i run /\ throughput_at s i = [int run])
        \/ ((forall run, ~ throughput_occurrence s i run)
            /\ throughput_at s i = []))
  /\ (forall s i,
        (exists run,
            duration_occurrence s i run /\ duration_at s i = [int run])
        \/ ((forall run, ~ duration_occurrence s i run)
            /\ duration_at s i = []))
  /\ scrape_file ([], [])
       (line "42k data points per second"
        ++ line "Backtest completed in 17 seconds")%string
     = ([42%Z], [17%Z])
  /\ scrape_file ([], [])
       (line "42k data points per second"
        ++ "Backtest completed in 17 seconds")%string
     = ([42%Z], [17%Z]).
Proof.
  split; [|split; [|split; [|split; reflexivity]]].
  - intros content. apply (scrape_file_sequences [] []).
  - exact throughput_at_spec.
  - exact duration_at_spec.
Qed.

(** C4.  Aggregation over an empty sample sequence raises: the mean of no
    data is [StatisticsError], the mean is a number only for data that is
    not empty, and for a log text without any occurrence the scraper
    yields two empty sequences and the algorithm's aggregation raises
    instead of recording a number. *)
Theorem aggregation_of_no_samples_raises (w : World) :
  Statistics.mean [] = Raise StatisticsError
  /\ (forall data v, Statistics.mean data = Ok v -> data <> [])
  /\ (forall content,
        throughput_sequence (list_ascii_of_string content) = [] ->
        duration_sequence (list_ascii_of_string content) = [] ->
        scrape_file ([], []) content = ([], [])
        /\ forall dataPath baseDirectory lang rpl f st fs',
             engine w (engine_invocation dataPath lang (PyStr.stem f)
                         (algorithm_location baseDirectory lang f)) (st_fs st)
             = Some fs' ->
             dict_get (fs_files fs') (algorithm_log (PyStr.stem f))
             = Some content ->
             fst (run_algorithm w dataPath baseDirectory lang rpl f st)
             = Raise StatisticsError).
Proof.
  split; [reflexivity|]. split; [exact mean_ok_nonempty|].
  intros content Ht Hd. split.
  - now rewrite (scrape_file_sequences [] []), Ht, Hd.
  - intros dataPath baseDirectory lang rpl f st fs' He Hl.
    rewrite (run_algorithm_result _ _ _ _ _ _ _ _ _ He Hl), Ht, Hd.
    reflexivity.
Qed.

Lemma aggregation_of_no_samples_raises_witness :
  fst (run_algorithm alpha_beta_world "../../../Data"
         "Algorithm.CSharp/Benchmarks" "CSharp" [] "Beta.cs"
         (initial_state alpha_beta_world))
  = Raise StatisticsError.
Proof.
  exact (proj2 (proj2 (proj2 (aggregation_of_no_samples_raises alpha_beta_world))
                  "" eq_refl eq_refl)
           "../../../Data" "Algorithm.CSharp/Benchmarks" "CSharp" [] "Beta.cs"
           (initial_state alpha_beta_world)
           (MkFS (fs_dirs alpha_beta_fs)
              [("./Launcher/bin/Release/Beta-log.txt", "")])
           eq_refl eq_refl).
Defined.

(** C5.  For every sequence S of samples that is not empty the computed
    average is sum(S) / len(S), and the entry recorded for the algorithm
    keeps S itself, in order, as its samples. *)
Theorem mean_is_sum_over_length_and_samples_are_kept (w : World) :
  (forall S : list Z,
      S <> [] ->
      exists v, Statistics.mean S = Ok v
        /\ Qeq (number_value v)
             (inject_Z (fold_right Z.add 0%Z S)
              / inject_Z (Z.of_nat (List.length S))))
  /\ (forall dataPath baseDirectory lang rpl f st fs' content,
        engine w (engine_invocation dataPath lang (PyStr.stem f)
                    (algorithm_location baseDirectory lang f)) (st_fs st)
        = Some fs' ->
        dict_get (fs_files fs') (algorithm_log (PyStr.stem f)) = Some content ->
        throughput_sequence (list_ascii_of_string content) <> [] ->
        duration_sequence (list_ascii_of_string content) <> [] ->
        exists rpl' m,
          fst (run_algorithm w dataPath baseDirectory lang rpl f st) = Ok rpl'
          /\ dict_get rpl' (PyStr.stem f) = Some m
          /\ samples m = throughput_sequence (list_ascii_of_string content)
          /\ Statistics.mean
               (throughput_sequence (list_ascii_of_string content))
             = Ok (average_dps m)
          /\ Statistics.mean
               (duration_sequence (list_ascii_of_string content))
             = Ok (average_length m)).
Proof.
  split; [exact mean_value|].
  intros dataPath baseDirectory lang rpl f st fs' content He Hl Ht Hd.
  rewrite (run_algorithm_result _ _ _ _ _ _ _ _ _ He Hl).
  destruct (mean_value _ Ht) as (a & Ha & _).
  destruct (mean_value _ Hd) as (l & Hl' & _).
  unfold aggregate. cbn [fst snd]. rewrite Ha, Hl'.
  eexists. eexists. split; [reflexivity|].
  rewrite dict_get_set_same. repeat split; reflexivity.
Qed.

Lemma mean_is_sum_over_length_and_samples_are_kept_witness :
  (exists v, Statistics.mean [10%Z; 11%Z] = Ok v
     /\ Qeq (number_value v)
          (inject_Z (fold_right Z.add 0%Z [10%Z; 11%Z])
           / inject_Z (Z.of_nat (List.length [10%Z; 11%Z]))))
  /\ exists rpl' m,
       fst (run_algorithm alpha_beta_world "../../../Data"
              "Algorithm.CSharp/Benchmarks" "CSharp" [] "Alpha.cs"
              (initial_state alpha_beta_world)) = Ok rpl'
       /\ dict_get rpl' "Alpha" = Some m
       /\ samples m = [10%Z].
Proof.
  split.
  - apply (proj1 (mean_is_sum_over_length_and_samples_are_kept alpha_beta_world)).
    discriminate.
  - destruct (proj2 (mean_is_sum_over_length_and_samples_are_kept alpha_beta_world)
                "../../../Data" "Algorithm.CSharp/Benchmarks" "CSharp" []
                "Alpha.cs" (initial_state alpha_beta_world)
                (MkFS (fs_dirs alpha_beta_fs)
                   [("./Launcher/bin/Release/Alpha-log.txt", alpha_log)])
                alpha_log eq_refl eq_refl)
      as (rpl' & m & H1 & H2 & H3 & _).
    + vm_compute. discriminate.
    + vm_compute. discriminate.
    + exists rpl', m. repeat split; [exact H1 | exact H2 | exact H3].
Defined.

(** ** Failures *)

Lemma run_script_raise w e st' :
  run_script w = (Raise e, st') -> dumps (st_trace st') = [].
Proof.
  intros H. apply run_script_facts in H as (evs & k & k' & Hf & [H|H]).
  - destruct H as (e' & _ & ->). now destruct Hf.
  - destruct H as (H & _). discriminate H.
Qed.

Lemma persisted_none tr : dumps tr = [] -> persisted tr = None.
Proof. unfold persisted. now intros ->. Qed.

(** C1, as the specification states it, fails on the scenario it names:
    with Alpha's log holding both signals and Beta's log empty the script
    ends with [StatisticsError] and writes no table at all. *)
Lemma alpha_beta_run_writes_no_table :
  fst (run_script alpha_beta_world) = Raise StatisticsError
  /\ ~ (exists doc,
          persisted (st_trace (snd (run_script alpha_beta_world))) = Some doc).
Proof.
  split; [vm_compute; reflexivity|].
  intros [doc H]. vm_compute in H. discriminate H.
Qed.

(** C1, amended.  Failures of one algorithm are not isolated.  An
    algorithm whose log yields no throughput sample or no duration sample
    raises [StatisticsError]; an exception raised for one file ends the loop
    over the directory at that file, so the files behind it are not run;
    a script that ends with an exception has written no table, not even
    for the algorithms that succeeded before; and a table that is written
    comes from a run without exception and holds no entry without
    samples. *)
Theorem failed_algorithm_aborts_the_run (w : World) :
  (forall dataPath baseDirectory lang rpl f st fs' content,
      engine w (engine_invocation dataPath lang (PyStr.stem f)
                  (algorithm_location baseDirectory lang f)) (st_fs st)
      = Some fs' ->
      dict_get (fs_files fs') (algorithm_log (PyStr.stem f)) = Some content ->
      throughput_sequence (list_ascii_of_string content) = []
      \/ duration_sequence (list_ascii_of_string content) = [] ->
      fst (run_algorithm w dataPath baseDirectory lang rpl f st)
      = Raise StatisticsError)
  /\ (forall dataPath baseDirectory lang pre f post rpl st rpl1 st1 e st2,
        for_each pre (visit_file w dataPath baseDirectory lang) rpl st
        = (Ok rpl1, st1) ->
        visit_file w dataPath baseDirectory lang rpl1 f st1 = (Raise e, st2) ->
        for_each (pre ++ f :: post) (visit_file w dataPath baseDirectory lang)
          rpl st
        = (Raise e, st2))
  /\ (forall e st',
        run_script w = (Raise e, st') ->
        dumps (st_trace st') = [] /\ persisted (st_trace st') = None)
  /\ (forall r st' doc,
        run_script w = (r, st') ->
        persisted (st_trace st') = Some doc ->
        r = Ok tt
        /\ exists rpl1 rpl2,
             doc = json_of_results [("CSharp", rpl1); ("Python", rpl2)]
             /\ nonempty_samples rpl1 /\ nonempty_samples rpl2).
Proof.
  split; [|split; [|split]].
  - intros dataPath baseDirectory lang rpl f st fs' content He Hl Hempty.
    rewrite (run_algorithm_result _ _ _ _ _ _ _ _ _ He Hl).
    now apply aggregate_empty.
  - intros dataPath baseDirectory lang pre f post rpl st rpl1 st1 e st2.
    apply for_each_aborts.
  - intros e st' H. apply run_script_raise in H.
    split; [exact H | now apply persisted_none].
  - intros r st' doc H Hdoc.
    pose proof (run_script_facts w r st' H)
      as (evs & k & k' & Hf & [(e & _ & Htr)|Hok]).
    + destruct Hf as [Fd _ _ _ _].
      rewrite Htr, (persisted_none _ Fd) in Hdoc. discriminate Hdoc.
    + destruct Hok as (-> & _ & _ & e1 & e2 & r1 & r2 & Htr & _ & _ & _ & N1 & N2).
      split; [reflexivity|]. exists r1, r2.
      destruct Hf as [Fd _ _ _ _].
      rewrite Htr in Hdoc. unfold persisted in Hdoc.
      rewrite dumps_app, Fd in Hdoc. cbn in Hdoc. injection Hdoc as <-.
      auto.
Qed.

Lemma failed_algorithm_aborts_the_run_witness :
  fst (run_algorithm alpha_beta_world "../../../Data"
         "Algorithm.CSharp/Benchmarks" "CSharp" [] "Beta.cs"
         (initial_state alpha_beta_world))
  = Raise StatisticsError
  /\ (dumps (st_trace (snd (run_script alpha_beta_world))) = []
      /\ persisted (st_trace (snd (run_script alpha_beta_world))) = None).
Proof.
  split.
  - exact (proj1 (failed_algorithm_aborts_the_run alpha_beta_world)
             "../../../Data" "Algorithm.CSharp/Benchmarks" "CSharp" [] "Beta.cs"
             (initial_state alpha_beta_world)
             (MkFS (fs_dirs alpha_beta_fs)
                [("./Launcher/bin/Release/Beta-log.txt", "")])
             "" eq_refl eq_refl (or_introl eq_refl)).
  - apply (proj1 (proj2 (proj2 (failed_algorithm_aborts_the_run alpha_beta_world)))
             StatisticsError).
    vm_compute. reflexivity.
Defined.

(** ** Discovery *)

(** C3, as the specification states it, fails on its own example: the
    filter accepts both suffixes in every directory, so B.cs is not left
    out. *)
Lemma discovery_accepts_both_suffixes :
  discovery ["A.py"; "B.cs"; "README.md"; "C.py"] = ["A"; "B"; "C"]
  /\ discovery ["A.py"; "B.cs"; "README.md"; "C.py"] <> ["A"; "C"].
Proof. split; [reflexivity | discriminate]. Qed.

(** C3, amended.  For every benchmark directory, of either language,
    discovery returns, in lexicographic file-name order, exactly the
    entries whose name ends in "py" or in "cs", with the last extension
    taken off to form the algorithm name; other files are skipped, and the
    loop over the directory runs these candidates and no others.  For
    A.py, B.cs, README.md, C.py it returns A, B, C. *)
Theorem discovery_returns_sorted_py_and_cs_files (entries : list string) :
  discovery entries = map PyStr.stem (candidates entries)
  /\ StronglySorted (fun a b => PyStr.le a b = true) (candidates entries)
  /\ Permutation (candidates entries) (filter is_algorithm_file entries)
  /\ (forall f,
        In f (candidates entries)
        <-> In f entries
            /\ ((exists b, f = (b ++ "py")%string)
                \/ (exists b, f = (b ++ "cs")%string)))
  /\ (forall base,
        base <> "" ->
        PyStr.stem (base ++ ".py") = base /\ PyStr.stem (base ++ ".cs") = base)
  /\ (forall w dataPath baseDirectory lang rpl st,
        for_each (sorted entries) (visit_file w dataPath baseDirectory lang)
          rpl st
        = for_each (candidates entries)
            (run_algorithm w dataPath baseDirectory lang) rpl st)
  /\ discovery ["A.py"; "B.cs"; "README.md"; "C.py"] = ["A"; "B"; "C"].
Proof.
  split; [reflexivity|].
  split; [apply candidates_sorted|].
  split; [apply candidates_permutation|].
  split; [|split; [|split; [|reflexivity]]].
  - intros f. rewrite <- is_algorithm_file_iff. split.
    + intros H.
      apply (Permutation_in _ (candidates_permutation entries)) in H.
      now apply filter_In in H.
    + intros H.
      apply (Permutation_in _ (Permutation_sym (candidates_permutation entries))).
      now apply filter_In.
  - intros base Hb. split.
    + apply (stem_extension base "py"); [exact Hb | discriminate | reflexivity].
    + apply (stem_extension base "cs"); [exact Hb | discriminate | reflexivity].
  - intros w dataPath baseDirectory lang rpl st. apply loop_runs_candidates.
Qed.

Lemma discovery_returns_sorted_py_and_cs_files_witness :
  PyStr.stem ("Alpha" ++ ".py") = "Alpha" /\ PyStr.stem ("Alpha" ++ ".cs") = "Alpha".
Proof.
  apply (proj1 (proj2 (proj2 (proj2 (proj2
           (discovery_returns_sorted_py_and_cs_files ["Alpha.py"])))))).
  discriminate.
Defined.

(** ** The trace of a whole run *)

Lemma run_script_trace w r st' :
  run_script w = (r, st') ->
  exists k k',
    (k' <= k <= List.length (discovered (st_trace st')))%nat
    /\ invocations (st_trace st')
       = map (invocation_of (data_path w)) (firstn k (discovered (st_trace st')))
    /\ opened_for_reading (st_trace st')
       = map log_of (firstn k' (discovered (st_trace st')))
    /\ Forall (fun l => In (fst l) base_directories) (listings (st_trace st'))
    /\ (r = Ok tt ->
        k = List.length (discovered (st_trace st'))
        /\ k' = List.length (discovered (st_trace st'))).
Proof.
  intros H. apply run_script_facts in H as (evs & k & k' & Hf & [H|H]).
  - destruct H as (e & -> & ->). destruct Hf as [_ Fl Fi Fo Fb].
    exists k, k'. repeat split; auto; try lia; discriminate.
  - destruct H as (-> & -> & -> & e1 & e2 & r1 & r2 & -> & _).
    destruct Hf as [_ Fl Fi Fo Fb].
    exists (List.length (discovered evs)), (List.length (discovered evs)).
    rewrite invocations_app, opened_app, discovered_app, listings_app.
    cbn [invocations opened_for_reading discovered listings flat_map app
           String.eqb Ascii.eqb Bool.eqb output_file].
    rewrite !app_nil_r. repeat split; auto; lia.
Qed.

Lemma run_algorithm_events w dataPath baseDirectory lang rpl f st r st' :
  run_algorithm w dataPath baseDirectory lang rpl f st = (r, st') ->
  exists evs,
    st_trace st' = st_trace st ++ evs
    /\ invocations evs
       = [engine_invocation dataPath lang (PyStr.stem f)
            (algorithm_location baseDirectory lang f)]
    /\ (opened_for_reading evs = [algorithm_log (PyStr.stem f)]
        \/ (opened_for_reading evs = [] /\ exists p, r = Raise (OSError p))).
Proof.
  rewrite run_algorithm_unfold. cbv zeta.
  set (i := engine_invocation dataPath lang (PyStr.stem f)
              (algorithm_location baseDirectory lang f)).
  destruct (engine w i (st_fs st)) as [fs'|].
  2:{ intros H; injection H as <- <-. exists [EvRun i]. cbn [st_trace].
      repeat split. right. split; [reflexivity | eauto]. }
  destruct (dict_get (fs_files fs') (algorithm_log (PyStr.stem f)))
    as [content|].
  2:{ intros H; injection H as <- <-. exists [EvRun i]. cbn [st_trace].
      repeat split. right. split; [reflexivity | eauto]. }
  intros H; injection H as _ <-. cbn [st_trace].
  exists (EvRun i :: open_events (st_file st) (algorithm_log (PyStr.stem f))).
  destruct (open_events_facts (st_file st) (algorithm_log (PyStr.stem f)))
    as (Oi & Oo & _ & _).
  split; [now rewrite <- app_assoc|].
  change (EvRun i :: ?x) with ([EvRun i] ++ x).
  rewrite invocations_app, opened_app, Oi, Oo. split; [reflexivity | now left].
Qed.

(** C6.  Each candidate the loop takes up triggers exactly one engine
    call and, unless that call or the opening of the log raises, exactly
    one reading of its log.  In every execution of the script the engine
    calls are, in discovery order, those of the candidates, one each and
    never two, and the logs opened are theirs; an execution that runs to
    its end has called the engine and read the log once for every
    candidate it discovered. *)
Theorem engine_runs_once_per_candidate (w : World) :
  (forall dataPath baseDirectory lang rpl f st r st',
      run_algorithm w dataPath baseDirectory lang rpl f st = (r, st') ->
      exists evs,
        st_trace st' = st_trace st ++ evs
        /\ invocations evs
           = [engine_invocation dataPath lang (PyStr.stem f)
                (algorithm_location baseDirectory lang f)]
        /\ (opened_for_reading evs = [algorithm_log (PyStr.stem f)]
            \/ (opened_for_reading evs = []
                /\ exists p, r = Raise (OSError p))))
  /\ (forall r st',
        run_script w = (r, st') ->
        (r = Ok tt ->
         invocations (st_trace st')
         = map (invocation_of (data_path w)) (discovered (st_trace st'))
         /\ opened_for_reading (st_trace st')
            = map log_of (discovered (st_trace st')))
        /\ exists k k',
             (k' <= k <= List.length (discovered (st_trace st')))%nat
             /\ invocations (st_trace st')
                = map (invocation_of (data_path w))
                    (firstn k (discovered (st_trace st')))
             /\ opened_for_reading (st_trace st')
                = map log_of (firstn k' (discovered (st_trace st')))).
Proof.
  split; [exact (run_algorithm_events w)|].
  intros r st' H.
  apply run_script_trace in H as (k & k' & Hb & Hi & Ho & _ & Hok).
  split.
  - intros Hr. destruct (Hok Hr) as [-> ->].
    now rewrite firstn_all in Hi, Ho.
  - exists k, k'. auto.
Qed.

Lemma engine_runs_once_per_candidate_witness :
  invocations (st_trace (snd (run_script two_good_world)))
  = map (invocation_of (data_path two_good_world))
      (discovered (st_trace (snd (run_script two_good_world))))
  /\ opened_for_reading (st_trace (snd (run_script two_good_world)))
     = map log_of (discovered (st_trace (snd (run_script two_good_world)))).
Proof.
  apply (proj1 (proj2 (engine_runs_once_per_candidate two_good_world)
                  (fst (run_script two_good_world))
                  (snd (run_script two_good_world))
                  (surjective_pairing _))).
  vm_compute. reflexivity.
Defined.

(** ** The persisted table *)

Lemma metric_shape_ok m : metric_shape (json_of_metric m) = true.
Proof.
  cbn. induction (samples m) as [|z l IH]; [reflexivity | exact IH].
Qed.

Lemma document_shape_ok results : document_shape (json_of_results results) = true.
Proof.
  unfold json_of_results, json_of_dict. cbn [document_shape].
  rewrite forallb_forall. intros [k v] Hin.
  apply in_map_iff in Hin as ([k' rpl] & Heq & _). injection Heq as <- <-.
  cbn [snd language_shape]. rewrite forallb_forall. intros [k2 v2] Hin.
  apply in_map_iff in Hin as ([k3 m] & Heq & _). injection Heq as <- <-.
  apply metric_shape_ok.
Qed.

Lemma json_keys_of_dict {V : Type} (f : V -> json) (d : dict V) :
  json_keys (json_of_dict f d) = keys d.
Proof. unfold json_of_dict, keys. cbn [json_keys]. now rewrite map_map. Qed.

Lemma json_values_of_dict {V : Type} (f : V -> json) (d : dict V) :
  json_values (json_of_dict f d) = map (fun kv => f (snd kv)) d.
Proof. unfold json_of_dict. cbn [json_values]. now rewrite map_map. Qed.

Lemma insert_keys_fresh names : forall ks,
  NoDup (ks ++ names) -> insert_keys ks names = ks ++ names.
Proof.
  induction names as [|n names IH]; intros ks Hnd.
  - now rewrite app_nil_r.
  - rewrite insert_keys_cons.
    assert (Hn : existsb (String.eqb n) ks = false).
    { destruct (existsb (String.eqb n) ks) eqn:E; [|reflexivity].
      apply existsb_exists in E as (x & Hx & Heq).
      apply String.eqb_eq in Heq. subst x.
      apply NoDup_remove_2 in Hnd. exfalso. apply Hnd.
      apply in_or_app. now left. }
    rewrite Hn, IH; rewrite <- app_assoc; [reflexivity | exact Hnd].
Qed.

(** C7.  The persisted output is one JSON document of the shape
    language -> algorithm -> (average-dps, samples, average-length); the
    script writes it once, as its last action, to "benchmark_results.json"
    in the working directory, and writes nothing when it ends with an
    exception; the languages and the algorithm names are in discovery
    order. *)
Theorem table_is_written_once_at_the_end (w : World) r st' :
  run_script w = (r, st') ->
  (exists e, r = Raise e /\ dumps (st_trace st') = [])
  \/ (r = Ok tt
      /\ exists evs doc,
           st_trace st'
           = evs ++ [EvOpen "benchmark_results.json" "w";
                     EvDump "benchmark_results.json" doc;
                     EvClose "benchmark_results.json"]
           /\ dumps evs = []
           /\ persisted (st_trace st') = Some doc
           /\ document_shape doc = true
           /\ json_keys doc
              = map (fun l => language_name (fst l)) (listings evs)
           /\ map json_keys (json_values doc)
              = map (fun l => insert_keys [] (discovery (snd l))) (listings evs)
           /\ Forall (fun l =>
                        NoDup (discovery (snd l)) ->
                        insert_keys [] (discovery (snd l)) = discovery (snd l))
                (listings evs)).
Proof.
  intros H. pose proof (run_script_facts w r st' H)
    as (evs & k & k' & Hf & [(e & -> & ->)|Hok]).
  - left. exists e. split; [reflexivity | now destruct Hf].
  - right. destruct Hok as (-> & _ & _ & e1 & e2 & r1 & r2 & Htr & Hl & K1 & K2 & _).
    split; [reflexivity|].
    exists evs, (json_of_results [("CSharp", r1); ("Python", r2)]).
    destruct Hf as [Fd _ _ _ _].
    split; [exact Htr|]. split; [exact Fd|].
    split; [rewrite Htr; unfold persisted; rewrite dumps_app, Fd; reflexivity|].
    split; [apply document_shape_ok|].
    rewrite Hl. unfold json_of_results.
    split; [now rewrite json_keys_of_dict|].
    split.
    + rewrite json_values_of_dict. cbn [map snd].
      now rewrite !json_keys_of_dict, K1, K2.
    + repeat constructor; cbn [snd]; intros Hn; now apply (insert_keys_fresh _ []).
Qed.

Lemma table_is_written_once_at_the_end_witness :
  (exists e, fst (run_script two_good_world) = Raise e
     /\ dumps (st_trace (snd (run_script two_good_world))) = [])
  \/ (fst (run_script two_good_world) = Ok tt
      /\ exists evs doc,
           st_trace (snd (run_script two_good_world))
           = evs ++ [EvOpen "benchmark_results.json" "w";
                     EvDump "benchmark_results.json" doc;
                     EvClose "benchmark_results.json"]
           /\ dumps evs = []
           /\ persisted (st_trace (snd (run_script two_good_world))) = Some doc
           /\ document_shape doc = true
           /\ json_keys doc
              = map (fun l => language_name (fst l)) (listings evs)
           /\ map json_keys (json_values doc)
              = map (fun l => insert_keys [] (discovery (snd l))) (listings evs)
           /\ Forall (fun l =>
                        NoDup (discovery (snd l)) ->
                        insert_keys [] (discovery (snd l)) = discovery (snd l))
                (listings evs)).
Proof.
  exact (table_is_written_once_at_the_end two_good_world
           (fst (run_script two_good_world)) (snd (run_script two_good_world))
           (surjective_pairing _)).
Defined.

(** ** The engine command *)

Lemma in_firstn {A : Type} (x : A) n : forall l, In x (firstn n l) -> In x l.
Proof.
  induction n as [|n IH]; intros [|a l]; cbn [firstn]; try contradiction.
  intros [->|H]; [now left | right; auto].
Qed.

Lemma discovered_directory tr baseDirectory algorithmFile :
  Forall (fun l => In (fst l) base_directories) (listings tr) ->
  In (baseDirectory, algorithmFile) (discovered tr) ->
  In baseDirectory base_directories.
Proof.
  intros Hl Hin. unfold discovered in Hin.
  apply in_flat_map in Hin as ([dir entries] & Hdir & Hin).
  cbn [fst snd] in Hin. apply in_map_iff in Hin as (f & Heq & _).
  injection Heq as <- <-.
  rewrite Forall_forall in Hl. exact (Hl _ Hdir).
Qed.

(** C8.  Every engine call of every execution carries exactly the flags
    --data-folder, --algorithm-language (CSharp or Python),
    --algorithm-type-name, --algorithm-location, --log-handler
    ConsoleErrorLogHandler and --close-automatically true, runs in the
    fixed working directory with standard output and standard error sent
    to the null device, and has returned, with the engine's effects in
    place, before the script goes on. *)
Theorem engine_command_has_the_fixed_flags (w : World) :
  (forall r st' i,
      run_script w = (r, st') ->
      In i (invocations (st_trace st')) ->
      exists baseDirectory algorithmFile language,
        In (baseDirectory, algorithmFile) (discovered (st_trace st'))
        /\ (baseDirectory = "Algorithm.CSharp/Benchmarks" /\ language = "CSharp"
            \/ baseDirectory = "Algorithm.Python/Benchmarks"
               /\ language = "Python")
        /\ args i
           = ["dotnet";
              "./QuantConnect.Lean.Launcher.dll";
              ("--data-folder " ++ data_path w)%string;
              ("--algorithm-language " ++ language)%string;
              ("--algorithm-type-name " ++ PyStr.stem algorithmFile)%string;
              ("--algorithm-location "
               ++ algorithm_location baseDirectory language algorithmFile)%string;
              "--log-handler ConsoleErrorLogHandler";
              "--close-automatically true"]
        /\ cwd i = "./Launcher/bin/Release"
        /\ stdout i = DEVNULL
        /\ stderr i = DEVNULL)
  /\ (forall algorithmFile,
        algorithm_location "Algorithm.CSharp/Benchmarks" "CSharp" algorithmFile
        = "QuantConnect.Algorithm.CSharp.dll"
        /\ (PyStr.startswith algorithmFile "/" = false ->
            algorithm_location "Algorithm.Python/Benchmarks" "Python"
              algorithmFile
            = ("../../../Algorithm.Python/Benchmarks/" ++ algorithmFile)%string))
  /\ (forall i st fs',
        engine w i (st_fs st) = Some fs' ->
        subprocess_run w i st
        = (Ok tt, MkState fs' (st_file st) (st_trace st ++ [EvRun i]))).
Proof.
  split; [|split].
  - intros r st' i H Hin.
    apply run_script_trace in H as (k & k' & _ & Hi & _ & Hl & _).
    rewrite Hi in Hin. apply in_map_iff in Hin as ([dir f] & <- & Hin).
    apply in_firstn in Hin.
    pose proof (discovered_directory _ _ _ Hl Hin) as Hdir.
    destruct Hdir as [<-|[<-|[]]].
    + exists "Algorithm.CSharp/Benchmarks", f, "CSharp".
      repeat split; auto.
    + exists "Algorithm.Python/Benchmarks", f, "Python".
      repeat split; auto.
  - intros f. split; [reflexivity|]. intros Hf.
    unfold algorithm_location, PyStr.path_join at 1. rewrite Hf.
    reflexivity.
  - intros i st fs' He. unfold subprocess_run, bind, log.
    cbn [st_fs st_file st_trace]. now rewrite He.
Qed.

Lemma engine_command_has_the_fixed_flags_witness :
  algorithm_location "Algorithm.Python/Benchmarks" "Python" "Alpha.py"
  = "../../../Algorithm.Python/Benchmarks/Alpha.py"
  /\ exists baseDirectory algorithmFile language,
       In (baseDirectory, algorithmFile)
         (discovered (st_trace (snd (run_script two_good_world))))
       /\ (baseDirectory = "Algorithm.CSharp/Benchmarks" /\ language = "CSharp"
           \/ baseDirectory = "Algorithm.Python/Benchmarks"
              /\ language = "Python")
       /\ args (invocation_of "../../../Data"
                  ("Algorithm.CSharp/Benchmarks", "Alpha.cs"))
          = ["dotnet";
             "./QuantConnect.Lean.Launcher.dll";
             ("--data-folder " ++ data_path two_good_world)%string;
             ("--algorithm-language " ++ language)%string;
             ("--algorithm-type-name " ++ PyStr.stem algorithmFile)%string;
             ("--algorithm-location "
              ++ algorithm_location baseDirectory language algorithmFile)%string;
             "--log-handler ConsoleErrorLogHandler";
             "--close-automatically true"].
Proof.
  split.
  - apply (proj2 (proj1 (proj2 (engine_command_has_the_fixed_flags two_good_world))
                    "Alpha.py")).
    reflexivity.
  - destruct (proj1 (engine_command_has_the_fixed_flags two_good_world)
                (fst (run_script two_good_world))
                (snd (run_script two_good_world))
                (invocation_of "../../../Data"
                   ("Algorithm.CSharp/Benchmarks", "Alpha.cs"))
                (surjective_pairing _))
      as (b & f & l & H1 & H2 & H3 & _).
    + vm_compute. left. reflexivity.
    + exists b, f, l. repeat split; assumption.
Defined.

(** ** The language keys *)

(** C10.  When the loop over the directories runs to its end, the
    results mapping has exactly the keys "CSharp" and "Python", in that
    order, and a language whose directory holds no algorithm file has its
    key all the same, mapped to an empty mapping. *)
Theorem results_have_both_language_keys (w : World) results st' :
  benchmark_all w (initial_state w) = (Ok results, st') ->
  keys results = ["CSharp"; "Python"]
  /\ (exists entries1 entries2,
        listings (st_trace st')
        = [("Algorithm.CSharp/Benchmarks", entries1);
           ("Algorithm.Python/Benchmarks", entries2)]
        /\ (candidates entries1 = [] -> dict_get results "CSharp" = Some [])
        /\ (candidates entries2 = [] -> dict_get results "Python" = Some [])).
Proof.
  intros H. apply benchmark_all_facts in H as (evs & k & k' & Htr & _ & Hok).
  destruct (Hok results eq_refl)
    as (_ & _ & e1 & e2 & r1 & r2 & Hl & -> & K1 & K2 & _).
  cbn [initial_state st_trace app] in Htr. rewrite Htr.
  split; [reflexivity|]. exists e1, e2. split; [exact Hl|].
  unfold discovery in K1, K2. split; intros Hc.
  - rewrite Hc in K1. cbn in K1. apply map_eq_nil in K1. now subst r1.
  - rewrite Hc in K2. cbn in K2. apply map_eq_nil in K2. now subst r2.
Qed.

Lemma results_have_both_language_keys_witness :
  keys (match fst (benchmark_all two_good_world (initial_state two_good_world))
        with Ok results => results | Raise _ => [] end)
  = ["CSharp"; "Python"].
Proof.
  destruct (benchmark_all two_good_world (initial_state two_good_world))
    as [[results|e] st'] eqn:E.
  - exact (proj1 (results_have_both_language_keys two_good_world results st' E)).
  - vm_compute in E. discriminate E.
Defined.

(** ** The log file handle *)

(** After an algorithm's step that opened the log, the file object is
    still bound to [file], open: nothing in the step closes it. *)
Lemma log_stays_open w dataPath baseDirectory lang rpl f st r st' fs' content :
  engine w (engine_invocation dataPath lang (PyStr.stem f)
              (algorithm_location baseDirectory lang f)) (st_fs st) = Some fs' ->
  dict_get (fs_files fs') (algorithm_log (PyStr.stem f)) = Some content ->
  run_algorithm w dataPath baseDirectory lang rpl f st = (r, st') ->
  st_file st' = Some (algorithm_log (PyStr.stem f))
  /\ st_trace st'
     = st_trace st
       ++ EvRun (engine_invocation dataPath lang (PyStr.stem f)
                   (algorithm_location baseDirectory lang f))
       :: EvOpen (algorithm_log (PyStr.stem f)) "r"
       :: match st_file st with Some old => [EvClose old] | None => [] end.
Proof.
  intros He Hl. rewrite run_algorithm_unfold. cbv zeta. rewrite He, Hl.
  intros H; injection H as _ <-. cbn [st_file st_trace].
  split; [reflexivity|]. now rewrite <- app_assoc.
Qed.

(** C9 fails on the code: with two algorithms, Alpha's log is still open
    while the engine runs Beta (it is closed only when [file] is bound to
    Beta's log), and Beta's log is never closed by the script. *)
Theorem log_is_open_during_the_next_run :
  fst (run_script two_good_world) = Ok tt
  /\ open_at_runs [] (st_trace (snd (run_script two_good_world)))
     = [(args (invocation_of "../../../Data"
                 ("Algorithm.CSharp/Benchmarks", "Alpha.cs")),
         []);
        (args (invocation_of "../../../Data"
                 ("Algorithm.CSharp/Benchmarks", "Beta.cs")),
         ["./Launcher/bin/Release/Alpha-log.txt"])]
  /\ left_open (st_trace (snd (run_script two_good_world)))
     = ["./Launcher/bin/Release/Beta-log.txt"].
Proof. repeat split; vm_compute; reflexivity. Qed.
End Claims.

(* ------------------------------------------------------------------ *)
(** * Further properties of the script *)

Section Invariants.

(** ** Invariants through the monad *)

Lemma keeps_ret {A : Type} P E (a : A) : keeps P E (ret a).
Proof. intros st r st' HP H. injection H as <- <-. split; [exact HP | discriminate]. Qed.

Lemma keeps_lift {A : Type} P (E : exn -> Prop) (r0 : result A) :
  (forall e, r0 = Raise e -> E e) -> keeps P E (lift r0).
Proof. intros HE st r st' HP H. injection H as <- <-. auto. Qed.

Lemma keeps_bind {A B : Type} P E (c : M A) (k : A -> M B) :
  keeps P E c -> (forall a, keeps P E (k a)) -> keeps P E (bind c k).
Proof.
  intros Hc Hk st r st' HP H. unfold bind in H.
  destruct (c st) as [[a|e] st1] eqn:Ec.
  - destruct (Hc _ _ _ HP Ec) as [HP1 _]. exact (Hk a _ _ _ HP1 H).
  - injection H as <- <-. destruct (Hc _ _ _ HP Ec) as [HP1 HE].
    split; [exact HP1|]. intros e' He'; injection He' as <-. now apply HE.
Qed.

Lemma keeps_for_each {A B : Type} P E (xs : list A) (body : B -> A -> M B) :
  (forall acc x, In x xs -> keeps P E (body acc x)) ->
  forall acc, keeps P E (for_each xs body acc).
Proof.
  induction xs as [|x xs IH]; intros Hb acc; cbn [for_each].
  - apply keeps_ret.
  - apply keeps_bind; [apply Hb; now left|].
    intros acc'. apply IH. intros a y Hy. apply Hb. now right.
Qed.

Lemma left_open_app tr evs :
  left_open (tr ++ evs) = fold_left handle_step evs (left_open tr).
Proof. unfold left_open. now rewrite fold_left_app. Qed.

Lemma open_at_runs_app evs : forall open tr,
  open_at_runs open (tr ++ evs)
  = open_at_runs open tr ++ open_at_runs (fold_left handle_step tr open) evs.
Proof.
  intros open tr; revert open.
  induction tr as [|ev tr IH]; intros open; [reflexivity|].
  destruct ev; cbn [app open_at_runs fold_left handle_step]; rewrite IH;
    reflexivity.
Qed.

Lemma left_open_fold tr : left_open tr = fold_left handle_step tr [].
Proof. reflexivity. Qed.

Lemma remove_first_head p l : remove_first p (p :: l) = l.
Proof. cbn. now rewrite String.eqb_refl. Qed.

Lemma handles_length st : (List.length (handles st) <= 1)%nat.
Proof. unfold handles. destruct (st_file st); cbn; lia. Qed.

(** Events that neither open nor close nor run keep [one_handle]. *)
Lemma one_handle_quiet st evs st' :
  one_handle st ->
  st_trace st' = st_trace st ++ evs ->
  st_file st' = st_file st ->
  fold_left handle_step evs (handles st) = handles st ->
  Forall (fun c => (List.length (snd c) <= 1)%nat)
    (open_at_runs (handles st) evs) ->
  one_handle st'.
Proof.
  intros [Hl Hr] Htr Hf Hfold Hruns. unfold one_handle.
  assert (Hh : handles st' = handles st) by (unfold handles; now rewrite Hf).
  rewrite Htr, left_open_app, open_at_runs_app, <- left_open_fold, Hl, Hh.
  split; [exact Hfold|]. apply Forall_app. split; assumption.
Qed.

Section ScriptInvariants.

Variable w : World.

Lemma run_algorithm_keeps dataPath baseDirectory lang rpl f :
  keeps one_handle os_or_statistics_error
    (run_algorithm w dataPath baseDirectory lang rpl f).
Proof.
  intros st r st' HP. rewrite run_algorithm_unfold. cbv zeta.
  set (i := engine_invocation dataPath lang (PyStr.stem f)
              (algorithm_location baseDirectory lang f)).
  set (logp := algorithm_log (PyStr.stem f)).
  assert (Hrun : Forall (fun c => (List.length (snd c) <= 1)%nat)
                   (open_at_runs (handles st) [EvRun i])).
  { cbn. constructor; [apply handles_length | constructor]. }
  destruct (engine w i (st_fs st)) as [fs'|].
  2:{ intros H; injection H as <- <-. split.
      - now apply (one_handle_quiet st [EvRun i]).
      - intros e He; injection He as <-. right. eauto. }
  destruct (dict_get (fs_files fs') logp) as [content|].
  2:{ intros H; injection H as <- <-. split.
      - now apply (one_handle_quiet st [EvRun i]).
      - intros e He; injection He as <-. right. eauto. }
  intros H; injection H as <- <-. split.
  - destruct HP as [Hl Hr]. unfold one_handle. cbn [st_trace].
    rewrite <- app_assoc, left_open_app, open_at_runs_app,
      <- left_open_fold, Hl.
    split.
    + unfold handles, open_events. cbn [st_file].
      destruct (st_file st) as [old|];
        cbn [app fold_left handle_step]; [apply remove_first_head | reflexivity].
    + apply Forall_app. split; [exact Hr|].
      unfold open_events, handles. destruct (st_file st) as [old|];
        cbn [app open_at_runs args]; (constructor; [cbn; lia | constructor]).
  - intros e He. unfold aggregate in He.
    destruct (Statistics.mean (fst (scrape_file ([], []) content)))
      as [a|e1] eqn:E1.
    + destruct (Statistics.mean (snd (scrape_file ([], []) content)))
        as [l|e2] eqn:E2; [discriminate He|].
      injection He as <-. left. exact (mean_raises _ _ E2).
    + injection He as <-. left. exact (mean_raises _ _ E1).
Qed.

Lemma visit_file_keeps dataPath baseDirectory lang rpl f :
  keeps one_handle os_or_statistics_error
    (visit_file w dataPath baseDirectory lang rpl f).
Proof.
  unfold visit_file. destruct (is_algorithm_file f).
  - apply run_algorithm_keeps.
  - apply keeps_ret.
Qed.

Lemma listdir_keeps dir :
  keeps one_handle os_or_statistics_error (listdir dir).
Proof.
  intros st r st' HP. unfold listdir.
  destruct (dict_get (fs_dirs (st_fs st)) dir) as [entries|].
  - intros H; injection H as <- <-. split; [|discriminate].
    apply (one_handle_quiet st [EvListdir dir entries]); auto.
  - intros H; injection H as <- <-. split; [exact HP|].
    intros e He; injection He as <-. right. eauto.
Qed.

Lemma run_language_keeps dataPath results baseDirectory lang :
  language baseDirectory = Ok lang ->
  keeps one_handle os_or_statistics_error
    (run_language w dataPath results baseDirectory).
Proof.
  intros Hlang. unfold run_language.
  apply keeps_bind; [apply keeps_lift; rewrite Hlang; discriminate|].
  intros l. apply keeps_bind; [apply listdir_keeps|].
  intros entries. apply keeps_bind; [|intros rpl; apply keeps_ret].
  apply keeps_for_each. intros acc x _. apply visit_file_keeps.
Qed.

Lemma benchmark_all_keeps :
  keeps one_handle os_or_statistics_error (benchmark_all w).
Proof.
  unfold benchmark_all. apply keeps_for_each.
  intros acc x [<-|[<-|[]]].
  - now apply (run_language_keeps _ _ _ "CSharp").
  - now apply (run_language_keeps _ _ _ "Python").
Qed.

Lemma dump_to_keeps path doc :
  keeps one_handle os_or_statistics_error (dump_to w path doc).
Proof.
  intros st r st' HP. unfold dump_to. destruct (writable w path).
  - unfold bind, log. cbn [st_fs st_file st_trace].
    intros H; injection H as <- <-. split; [|discriminate].
    apply (one_handle_quiet st [EvOpen path "w"; EvDump path doc; EvClose path]).
    + exact HP.
    + cbn [st_trace]. now rewrite <- !app_assoc.
    + reflexivity.
    + unfold handles. destruct (st_file st) as [p|];
        cbn [fold_left handle_step app]; [|apply remove_first_head].
      cbn [remove_first]. destruct (String.eqb_spec path p) as [->|];
        [reflexivity | now rewrite String.eqb_refl].
    + cbn. constructor.
  - intros H; injection H as <- <-. split; [exact HP|].
    intros e He; injection He as <-. right. eauto.
Qed.

Lemma main_keeps : keeps one_handle os_or_statistics_error (main w).
Proof.
  unfold main. apply keeps_bind; [apply benchmark_all_keeps|].
  intros results. apply dump_to_keeps.
Qed.

Lemma one_handle_initial : one_handle (initial_state w).
Proof. split; [reflexivity | constructor]. Qed.

End ScriptInvariants.

End Invariants.

Section ErrorPaths.



(** X2.  In every execution, whenever the engine is started at most one
    file is open (the log read last), and when the script ends the only
    file left open is the log bound to [file]. *)
Theorem at_most_one_log_is_open (w : World) r st' :
  run_script w = (r, st') ->
  Forall (fun c => (List.length (snd c) <= 1)%nat)
    (open_at_runs [] (st_trace st'))
  /\ left_open (st_trace st')
     = match st_file st' with Some p => [p] | None => [] end.
Proof.
  intros H.
  destruct (proj1 (main_keeps w _ _ _ (one_handle_initial w) H)) as [Hl Hr].
  split; [exact Hr | exact Hl].
Qed.

Lemma at_most_one_log_is_open_witness :
  Forall (fun c => (List.length (snd c) <= 1)%nat)
    (open_at_runs [] (st_trace (snd (run_script two_good_world))))
  /\ left_open (st_trace (snd (run_script two_good_world)))
     = match st_file (snd (run_script two_good_world)) with
       | Some p => [p]
       | None => []
       end.
Proof.
  exact (at_most_one_log_is_open two_good_world
           (fst (run_script two_good_world)) (snd (run_script two_good_world))
           (surjective_pairing _)).
Defined.

(** X3.  A benchmark directory that cannot be listed ends the run with
    [OSError] for that directory and leaves the state as it was.  When it
    is the first directory nothing at all has happened; when it is the
    second, the first directory's algorithms have all been run and their
    results are not written. *)
Theorem unreadable_directory_aborts (w : World) :
  (forall dataPath results baseDirectory lang st,
      language baseDirectory = Ok lang ->
      dict_get (fs_dirs (st_fs st)) baseDirectory = None ->
      run_language w dataPath results baseDirectory st
      = (Raise (OSError baseDirectory), st))
  /\ (dict_get (fs_dirs (initial_fs w)) "Algorithm.CSharp/Benchmarks" = None ->
      run_script w
      = (Raise (OSError "Algorithm.CSharp/Benchmarks"), initial_state w))
  /\ (forall results1 st1,
        run_language w (data_path w) [] "Algorithm.CSharp/Benchmarks"
          (initial_state w) = (Ok results1, st1) ->
        dict_get (fs_dirs (st_fs st1)) "Algorithm.Python/Benchmarks" = None ->
        run_script w = (Raise (OSError "Algorithm.Python/Benchmarks"), st1)
        /\ dumps (st_trace st1) = []).
Proof.
  assert (Hlang : forall dataPath results baseDirectory lang st,
             language baseDirectory = Ok lang ->
             dict_get (fs_dirs (st_fs st)) baseDirectory = None ->
             run_language w dataPath results baseDirectory st
             = (Raise (OSError baseDirectory), st)).
  { intros dataPath results baseDirectory lang st Hl Hd.
    destruct (run_language w dataPath results baseDirectory st) as [r st'] eqn:E.
    pose proof (run_language_facts w _ _ _ _ _ _ _ Hl E) as H.
    rewrite Hd in H. destruct H as [-> ->]. reflexivity. }
  split; [exact Hlang|]. split.
  - intros Hd. unfold run_script, main, benchmark_all, base_directories.
    apply bind_of_raise. rewrite for_each_cons.
    now rewrite (Hlang _ _ _ "CSharp").
  - intros results1 st1 H1 Hd. split.
    + unfold run_script, main, benchmark_all, base_directories.
      apply bind_of_raise. rewrite for_each_cons, H1, for_each_cons.
      now rewrite (Hlang _ _ _ "Python").
    + apply (run_language_run_facts w _ _ "CSharp") in H1
        as (evs & k & k' & Htr & [Fd _ _ _ _] & _);
        [|now left|reflexivity].
      cbn [initial_state st_trace app] in Htr. now rewrite Htr.
Qed.

Lemma unreadable_directory_aborts_witness :
  run_script no_directories_world
  = (Raise (OSError "Algorithm.CSharp/Benchmarks"),
     initial_state no_directories_world).
Proof.
  apply (proj1 (proj2 (unreadable_directory_aborts no_directories_world))).
  reflexivity.
Defined.

(** X4.  An engine that cannot be launched raises [OSError] after the
    call was attempted, and an engine that leaves no log raises [OSError]
    for the log path after exactly one call; in both cases no file is
    opened and [file] keeps the object it was bound to. *)
Theorem engine_or_log_failure_raises_oserror
    (w : World) dataPath baseDirectory lang rpl f st :
  let i := engine_invocation dataPath lang (PyStr.stem f)
             (algorithm_location baseDirectory lang f) in
  (engine w i (st_fs st) = None ->
   run_algorithm w dataPath baseDirectory lang rpl f st
   = (Raise (OSError "dotnet"),
      MkState (st_fs st) (st_file st) (st_trace st ++ [EvRun i])))
  /\ (forall fs',
        engine w i (st_fs st) = Some fs' ->
        dict_get (fs_files fs') (algorithm_log (PyStr.stem f)) = None ->
        run_algorithm w dataPath baseDirectory lang rpl f st
        = (Raise (OSError (algorithm_log (PyStr.stem f))),
           MkState fs' (st_file st) (st_trace st ++ [EvRun i]))).
Proof.
  intros i. split.
  - intros He. rewrite run_algorithm_unfold. cbv zeta. fold i. now rewrite He.
  - intros fs' He Hl. rewrite run_algorithm_unfold. cbv zeta. fold i.
    now rewrite He, Hl.
Qed.

Lemma engine_or_log_failure_raises_oserror_witness :
  fst (run_algorithm no_engine_world "../../../Data"
         "Algorithm.CSharp/Benchmarks" "CSharp" [] "Alpha.cs"
         (initial_state no_engine_world))
  = Raise (OSError "dotnet")
  /\ fst (run_algorithm silent_engine_world "../../../Data"
            "Algorithm.CSharp/Benchmarks" "CSharp" [] "Alpha.cs"
            (initial_state silent_engine_world))
     = Raise (OSError "./Launcher/bin/Release/Alpha-log.txt").
Proof.
  split.
  - rewrite (proj1 (engine_or_log_failure_raises_oserror no_engine_world
                      "../../../Data" "Algorithm.CSharp/Benchmarks" "CSharp"
                      [] "Alpha.cs" (initial_state no_engine_world))
               eq_refl).
    reflexivity.
  - rewrite (proj2 (engine_or_log_failure_raises_oserror silent_engine_world
                      "../../../Data" "Algorithm.CSharp/Benchmarks" "CSharp"
                      [] "Alpha.cs" (initial_state silent_engine_world))
               alpha_beta_fs eq_refl eq_refl).
    reflexivity.
Defined.

(** X5.  When the output file cannot be opened for writing, every
    algorithm is still run first; the script then ends with [OSError] for
    "benchmark_results.json" and the results are lost. *)
Theorem unwritable_output_loses_the_results (w : World) r st' :
  writable w "benchmark_results.json" = false ->
  run_script w = (r, st') ->
  (exists e, r = Raise e)
  /\ dumps (st_trace st') = []
  /\ forall results st1,
       benchmark_all w (initial_state w) = (Ok results, st1) ->
       r = Raise (OSError "benchmark_results.json") /\ st' = st1.
Proof.
  intros Hw H.
  assert (Hr : exists e, r = Raise e).
  { unfold run_script, main in H.
    destruct (benchmark_all w (initial_state w)) as [[results|e] st1] eqn:Eb.
    - rewrite (bind_of_ok _ _ _ _ _ Eb) in H. unfold dump_to, output_file in H.
      rewrite Hw in H. injection H as <- _. eauto.
    - rewrite (bind_of_raise _ _ _ _ _ Eb) in H. injection H as <- _. eauto. }
  split; [exact Hr|]. split.
  - destruct Hr as [e ->]. exact (run_script_raise _ _ _ H).
  - intros results st1 Eb. unfold run_script, main in H.
    rewrite (bind_of_ok _ _ _ _ _ Eb) in H. unfold dump_to, output_file in H.
    rewrite Hw in H. injection H as <- <-. auto.
Qed.

Lemma unwritable_output_loses_the_results_witness :
  (exists e, fst (run_script read_only_world) = Raise e)
  /\ dumps (st_trace (snd (run_script read_only_world))) = [].
Proof.
  destruct (unwritable_output_loses_the_results read_only_world
              (fst (run_script read_only_world))
              (snd (run_script read_only_world))
              eq_refl (surjective_pairing _)) as (H1 & H2 & _).
  split; assumption.
Defined.

End ErrorPaths.

Section NamesAndPaths.

Lemma prefix_slash c s : prefix "/" (String c s) = Ascii.eqb "/" c.
Proof.
  destruct (prefix "/" (String c s)) eqn:E.
  - apply prefix_correct in E. cbn in E. injection E as ->.
    now rewrite Ascii.eqb_refl.
  - destruct (Ascii.eqb_spec "/" c) as [<-|]; [|reflexivity].
    assert (H : prefix "/" (String "/" s) = true).
    { apply prefix_correct. cbn. now destruct s. }
    congruence.
Qed.

Lemma index_slash_none_cons c s :
  PyStr.index "/" (String c s) = None ->
  Ascii.eqb "/" c = false /\ PyStr.index "/" s = None.
Proof.
  unfold PyStr.index. cbn [String.index]. rewrite prefix_slash.
  destruct (Ascii.eqb "/" c); [discriminate|].
  destruct (String.index 0 "/" s); [discriminate | auto].
Qed.

Lemma index_slash_append a b :
  PyStr.index "/" a = None ->
  PyStr.index "/" (a ++ "/" ++ b) = Some (String.length a).
Proof.
  induction a as [|c a IH]; intros Ha.
  - unfold PyStr.index. cbn [append String.index]. now rewrite prefix_slash.
  - destruct (index_slash_none_cons _ _ Ha) as [Hc Ha'].
    specialize (IH Ha'). unfold PyStr.index in *.
    change (String c a ++ "/" ++ b)%string with (String c (a ++ "/" ++ b)).
    cbn [String.index String.length]. now rewrite prefix_slash, Hc, IH.
Qed.

Lemma append_assoc a b c : ((a ++ b) ++ c = a ++ b ++ c)%string.
Proof. induction a as [|x a IH]; cbn; [reflexivity | now rewrite IH]. Qed.

Lemma append_empty_r a : (a ++ "")%string = a.
Proof. induction a as [|x a IH]; cbn; [reflexivity | now rewrite IH]. Qed.

Lemma substring_zero s n : substring n 0 s = "".
Proof.
  revert n; induction s as [|c s IH]; intros [|n]; cbn; auto.
Qed.

(** X6.  The language is the text between the tenth character and the
    first slash of the directory name: for a ten-character prefix and a
    language without slash it is the language; a directory without slash
    raises [ValueError]; a slash within the first ten characters gives
    the empty language. *)
Theorem language_is_the_text_up_to_the_slash :
  (forall pre lang rest,
      String.length pre = 10%nat ->
      PyStr.index "/" pre = None ->
      PyStr.index "/" lang = None ->
      language (pre ++ lang ++ "/" ++ rest) = Ok lang)
  /\ (forall baseDirectory,
        PyStr.index "/" baseDirectory = None ->
        language baseDirectory = Raise ValueError)
  /\ (forall pre rest,
        (String.length pre <= 10)%nat ->
        PyStr.index "/" pre = None ->
        language (pre ++ "/" ++ rest) = Ok "").
Proof.
  split; [|split].
  - intros pre lang rest Hlen Hpre Hlang. unfold language.
    assert (Hi : PyStr.index "/" (pre ++ lang ++ "/" ++ rest)
                 = Some (String.length (pre ++ lang))).
    { rewrite <- append_assoc. apply index_slash_append.
      clear Hlen. induction pre as [|c pre IH]; [exact Hlang|].
      destruct (index_slash_none_cons _ _ Hpre) as [Hc Hpre'].
      specialize (IH Hpre'). unfold PyStr.index in *.
      change (String c pre ++ lang)%string with (String c (pre ++ lang)).
      cbn [String.index]. now rewrite prefix_slash, Hc, IH. }
    rewrite Hi. unfold PyStr.slice. rewrite length_append.
    change (String.length "Algorithm" + 1)%nat with 10%nat.
    rewrite <- Hlen.
    replace (String.length pre + String.length lang - String.length pre)%nat
      with (String.length lang) by lia.
    now rewrite substring_skip, substring_prefix.
  - intros baseDirectory H. unfold language. now rewrite H.
  - intros pre rest Hlen Hpre. unfold language.
    rewrite (index_slash_append _ _ Hpre). unfold PyStr.slice.
    replace (String.length pre - (String.length "Algorithm" + 1))%nat
      with 0%nat by (cbn; lia).
    now rewrite substring_zero.
Qed.

Lemma language_is_the_text_up_to_the_slash_witness :
  language ("Algorithm." ++ "FSharp" ++ "/" ++ "Benchmarks") = Ok "FSharp"
  /\ language "Benchmarks" = Raise ValueError
  /\ language ("Algo" ++ "/" ++ "Benchmarks") = Ok "".
Proof.
  split; [|split].
  - apply (proj1 language_is_the_text_up_to_the_slash); reflexivity.
  - apply (proj1 (proj2 language_is_the_text_up_to_the_slash)); reflexivity.
  - apply (proj2 (proj2 language_is_the_text_up_to_the_slash));
      [cbn; lia | reflexivity].
Defined.

Lemma append_cancel_l p a b : (p ++ a = p ++ b)%string -> a = b.
Proof.
  induction p as [|c p IH]; cbn; [auto|]. intros H; injection H as H. auto.
Qed.

Lemma append_cancel_r s : forall a b, (a ++ s = b ++ s)%string -> a = b.
Proof.
  induction a as [|x a IH]; intros [|y b] H.
  - reflexivity.
  - apply (f_equal String.length) in H. cbn in H.
    rewrite length_append in H. lia.
  - apply (f_equal String.length) in H. cbn in H.
    rewrite length_append in H. lia.
  - cbn in H. injection H as -> H. f_equal. now apply IH.
Qed.

Lemma startswith_slash_append n s :
  n <> "" -> PyStr.startswith (n ++ s) "/" = PyStr.startswith n "/".
Proof.
  unfold PyStr.startswith. destruct n as [|c n]; [contradiction|].
  intros _. change (String c n ++ s)%string with (String c (n ++ s)).
  now rewrite !prefix_slash.
Qed.

Lemma algorithm_log_relative name :
  PyStr.startswith name "/" = false ->
  algorithm_log name = ("./Launcher/bin/Release/" ++ name ++ "-log.txt")%string.
Proof.
  intros H. unfold algorithm_log, PyStr.path_join.
  assert (Hs : PyStr.startswith (name ++ "-log.txt") "/" = false).
  { destruct name as [|c n]; [reflexivity|].
    rewrite startswith_slash_append by discriminate. exact H. }
  rewrite Hs. reflexivity.
Qed.

(** X7.  The log of an algorithm depends on its name alone, not on the
    language or the directory: for names that do not start with a slash
    it is "./Launcher/bin/Release/<name>-log.txt", and two names have the
    same log exactly when they are equal; a name that starts with a slash
    is taken as an absolute path and the release directory is dropped. *)
Theorem log_path_is_determined_by_the_name :
  (forall name,
      PyStr.startswith name "/" = false ->
      algorithm_log name
      = ("./Launcher/bin/Release/" ++ name ++ "-log.txt")%string)
  /\ (forall name1 name2,
        PyStr.startswith name1 "/" = false ->
        PyStr.startswith name2 "/" = false ->
        (algorithm_log name1 = algorithm_log name2 <-> name1 = name2))
  /\ (forall name,
        PyStr.startswith name "/" = true ->
        algorithm_log name = (name ++ "-log.txt")%string)
  /\ (forall directory1 directory2 file1 file2,
        PyStr.stem file1 = PyStr.stem file2 ->
        log_of (directory1, file1) = log_of (directory2, file2)).
Proof.
  split; [exact algorithm_log_relative|]. split; [|split].
  - intros name1 name2 H1 H2. split; [|now intros ->].
    rewrite !algorithm_log_relative by assumption. intros H.
    apply append_cancel_l in H. now apply append_cancel_r in H.
  - intros name H. unfold algorithm_log, PyStr.path_join.
    assert (Hn : name <> "") by (intros ->; discriminate H).
    now rewrite (startswith_slash_append _ _ Hn), H.
  - intros d1 d2 f1 f2 H. unfold log_of. cbn [snd]. now rewrite H.
Qed.

Lemma log_path_is_determined_by_the_name_witness :
  algorithm_log "Alpha" = "./Launcher/bin/Release/Alpha-log.txt"
  /\ (algorithm_log "Alpha" = algorithm_log "Beta" <-> "Alpha" = "Beta")
  /\ algorithm_log "/tmp/Alpha" = "/tmp/Alpha-log.txt"
  /\ log_of ("Algorithm.CSharp/Benchmarks", "Alpha.cs")
     = log_of ("Algorithm.Python/Benchmarks", "Alpha.py").
Proof.
  split; [|split; [|split]].
  - apply (proj1 log_path_is_determined_by_the_name). reflexivity.
  - apply (proj1 (proj2 log_path_is_determined_by_the_name)); reflexivity.
  - apply (proj1 (proj2 (proj2 log_path_is_determined_by_the_name))).
    reflexivity.
  - apply (proj2 (proj2 (proj2 log_path_is_determined_by_the_name))).
    reflexivity.
Defined.

Lemma rfind_dot_split s : forall i,
  PyStr.rfind_dot s = Some i ->
  exists a b,
    s = (a ++ "." ++ b)%string /\ String.length a = i
    /\ PyStr.rfind_dot b = None.
Proof.
  induction s as [|c s IH]; intros i; cbn [PyStr.rfind_dot]; [discriminate|].
  destruct (PyStr.rfind_dot s) as [j|] eqn:E.
  - intros H; injection H as <-.
    destruct (IH j eq_refl) as (a & b & -> & <- & Hb).
    exists (String c a), b. auto.
  - destruct (Ascii.eqb_spec c ".") as [->|]; [|discriminate].
    intros H; injection H as <-. exists "", s. auto.
Qed.

(** X8.  [stem] never changes the beginning of a name: the name is its
    stem followed either by nothing or by one extension, a dot and a
    non-empty text without dot, and then the stem is not empty.  A name
    without dot, a name whose only dot is the first character and a name
    that ends with a dot are their own stems. *)
Theorem stem_takes_off_at_most_one_extension (name : string) :
  (exists ext,
      name = (PyStr.stem name ++ ext)%string
      /\ (ext = ""
          \/ exists e,
               ext = ("." ++ e)%string /\ e <> ""
               /\ PyStr.rfind_dot e = None /\ PyStr.stem name <> ""))
  /\ (PyStr.rfind_dot name = None -> PyStr.stem name = name)
  /\ (forall rest,
        PyStr.rfind_dot rest = None ->
        PyStr.stem ("." ++ rest) = ("." ++ rest)%string)
  /\ (forall base, PyStr.stem (base ++ ".") = (base ++ ".")%string).
Proof.
  split; [|split; [|split]].
  - unfold PyStr.stem. destruct (PyStr.rfind_dot name) as [i|] eqn:E.
    2:{ exists "". now rewrite append_empty_r; auto. }
    destruct (rfind_dot_split _ _ E) as (a & b & -> & <- & Hb).
    destruct ((0 <? String.length a)%nat
              && (String.length a <? String.length (a ++ "." ++ b) - 1)%nat)
      eqn:C.
    + apply andb_prop in C as [Ca Cb].
      apply Nat.ltb_lt in Ca. apply Nat.ltb_lt in Cb.
      rewrite !length_append in Cb. cbn [String.length] in Cb.
      rewrite substring_prefix. exists ("." ++ b)%string.
      split; [reflexivity|]. right. exists b. repeat split; auto.
      * intros ->. cbn in Cb. lia.
      * intros ->. cbn in Ca. lia.
    + exists "". now rewrite append_empty_r; auto.
  - intros H. unfold PyStr.stem. now rewrite H.
  - intros rest H. unfold PyStr.stem.
    change ("." ++ rest)%string with ("" ++ "." ++ rest)%string.
    rewrite (rfind_dot_append "" rest H). reflexivity.
  - intros base. unfold PyStr.stem.
    change (base ++ ".")%string with (base ++ "." ++ "")%string.
    rewrite (rfind_dot_append base "" eq_refl).
    rewrite !length_append. cbn [String.length].
    replace (String.length base <? String.length base + (1 + 0) - 1)%nat
      with false by (symmetry; apply Nat.ltb_ge; lia).
    now rewrite andb_false_r.
Qed.

Lemma stem_takes_off_at_most_one_extension_witness :
  PyStr.stem "happy" = "happy" /\ PyStr.stem ("." ++ "py") = ".py".
Proof.
  split.
  - apply (proj1 (proj2 (stem_takes_off_at_most_one_extension "happy"))).
    reflexivity.
  - apply (proj1 (proj2 (proj2 (stem_takes_off_at_most_one_extension "")))).
    reflexivity.
Defined.

End NamesAndPaths.

Section DiscoveryAndTable.

Lemma strongly_sorted_unique (l : list string) : forall l',
  StronglySorted (fun a b => PyStr.le a b = true) l ->
  StronglySorted (fun a b => PyStr.le a b = true) l' ->
  Permutation l l' -> l = l'.
Proof.
  induction l as [|a l IH]; intros l' Hl Hl' Hp.
  - apply Permutation_nil in Hp. now subst.
  - destruct l' as [|b l'];
      [apply Permutation_sym, Permutation_nil in Hp; discriminate|].
    apply StronglySorted_inv in Hl as [Hl Ha].
    apply StronglySorted_inv in Hl' as [Hl' Hb].
    rewrite Forall_forall in Ha, Hb.
    assert (Hab : a = b).
    { assert (Hin : In a (b :: l')) by (apply (Permutation_in _ Hp); now left).
      assert (Hin' : In b (a :: l))
        by (apply (Permutation_in _ (Permutation_sym Hp)); now left).
      destruct Hin as [->|Hin]; [reflexivity|].
      destruct Hin' as [->|Hin']; [reflexivity|].
      apply String.leb_antisym; [apply Ha | apply Hb]; assumption. }
    subst b. f_equal. apply IH; auto.
    now apply Permutation_cons_inv in Hp.
Qed.

(** X9.  The order in which [os.listdir] returns the entries does not
    matter: two listings with the same entries give the same candidates
    in the same order, hence the same algorithm names. *)
Theorem discovery_ignores_the_listing_order (entries entries' : list string) :
  Permutation entries entries' ->
  candidates entries = candidates entries'
  /\ discovery entries = discovery entries'.
Proof.
  intros Hp.
  assert (Hc : candidates entries = candidates entries').
  { apply strongly_sorted_unique; try apply candidates_sorted.
    rewrite (candidates_permutation entries), (candidates_permutation entries').
    now apply filter_permutation. }
  split; [exact Hc|]. unfold discovery. now rewrite Hc.
Qed.

Lemma discovery_ignores_the_listing_order_witness :
  candidates ["Beta.cs"; "Alpha.cs"] = candidates ["Alpha.cs"; "Beta.cs"]
  /\ discovery ["Beta.cs"; "Alpha.cs"] = discovery ["Alpha.cs"; "Beta.cs"].
Proof.
  apply discovery_ignores_the_listing_order. apply perm_swap.
Defined.

Lemma existsb_eqb_in name ks :
  existsb (String.eqb name) ks = true <-> In name ks.
Proof.
  rewrite existsb_exists. split.
  - intros (x & Hx & Heq). apply String.eqb_eq in Heq. now subst.
  - intros H. exists name. split; [exact H | apply String.eqb_refl].
Qed.

Lemma insert_keys_nodup names : forall ks,
  NoDup ks -> NoDup (insert_keys ks names).
Proof.
  induction names as [|n names IH]; intros ks Hks; [exact Hks|].
  rewrite insert_keys_cons. apply IH.
  destruct (existsb (String.eqb n) ks) eqn:E; [exact Hks|].
  apply NoDup_app; [exact Hks | repeat constructor; auto |].
  intros x Hx [<-|[]]. apply existsb_eqb_in in Hx. congruence.
Qed.

Lemma insert_keys_incl names : forall ks x,
  In x (insert_keys ks names) <-> In x ks \/ In x names.
Proof.
  induction names as [|n names IH]; intros ks x.
  - cbn. tauto.
  - rewrite insert_keys_cons, IH. cbn [In].
    destruct (existsb (String.eqb n) ks) eqn:E.
    + apply existsb_eqb_in in E. split; [tauto|].
      intros [H|[<-|H]]; auto.
    + rewrite in_app_iff. cbn [In]. tauto.
Qed.

(** X10.  Recording an algorithm leaves every other entry of the table
    alone; when the name is new it is added behind the others, and when
    a file with the same stem was recorded before (A.cs and A.py in one
    directory) its entry is replaced where it stands, so the table never
    holds a name twice. *)
Theorem recording_replaces_the_entry_of_the_same_name
    (w : World) dataPath baseDirectory lang rpl f st rpl' st' :
  run_algorithm w dataPath baseDirectory lang rpl f st = (Ok rpl', st') ->
  (forall name, name <> PyStr.stem f -> dict_get rpl' name = dict_get rpl name)
  /\ (exists m, dict_get rpl' (PyStr.stem f) = Some m /\ samples m <> [])
  /\ (In (PyStr.stem f) (keys rpl) -> keys rpl' = keys rpl)
  /\ (~ In (PyStr.stem f) (keys rpl) -> keys rpl' = keys rpl ++ [PyStr.stem f])
  /\ (NoDup (keys rpl) -> NoDup (keys rpl')).
Proof.
  rewrite run_algorithm_unfold. cbv zeta.
  destruct (engine w _ (st_fs st)) as [fs'|]; [|discriminate].
  destruct (dict_get (fs_files fs') _) as [content|]; [|discriminate].
  intros H. injection H as H _.
  apply aggregate_ok in H as (Hd & _ & a & l & _ & _ & ->).
  assert (Hk : keys (dict_set rpl (PyStr.stem f)
                       (Metric a (fst (scrape_file ([], []) content)) l))
               = insert_keys (keys rpl) [PyStr.stem f])
    by apply keys_dict_set.
  split; [|split; [|split; [|split]]].
  - intros name Hn. apply dict_get_set_other. congruence.
  - eexists. split; [apply dict_get_set_same | exact Hd].
  - intros Hin. rewrite keys_dict_set.
    now rewrite (proj2 (existsb_eqb_in _ _) Hin).
  - intros Hin. rewrite keys_dict_set.
    destruct (existsb (String.eqb (PyStr.stem f)) (keys rpl)) eqn:E;
      [apply existsb_eqb_in in E; contradiction | reflexivity].
  - intros Hn. rewrite Hk. now apply insert_keys_nodup.
Qed.

Lemma recording_replaces_the_entry_of_the_same_name_witness :
  exists rpl' st',
    run_algorithm two_good_world "../../../Data" "Algorithm.CSharp/Benchmarks"
      "CSharp" [("Alpha", Metric (PyInt 1) [1%Z] (PyInt 1))] "Alpha.py"
      (initial_state two_good_world) = (Ok rpl', st')
    /\ keys rpl' = ["Alpha"].
Proof.
  eexists. eexists. split; [vm_compute; reflexivity|].
  refine (proj1 (proj2 (proj2
            (recording_replaces_the_entry_of_the_same_name two_good_world
               "../../../Data" "Algorithm.CSharp/Benchmarks" "CSharp"
               [("Alpha", Metric (PyInt 1) [1%Z] (PyInt 1))] "Alpha.py"
               (initial_state two_good_world) _ _ _))) _).
  - vm_compute. reflexivity.
  - left. reflexivity.
Defined.

(** X11.  In the table a completed run writes, the two languages are
    different keys and no algorithm name occurs twice under a language;
    the names under a language are exactly the names discovery gave for
    its directory. *)
Theorem written_table_has_no_duplicate_key (w : World) st' :
  run_script w = (Ok tt, st') ->
  exists doc entries1 entries2,
    persisted (st_trace st') = Some doc
    /\ listings (st_trace st')
       = [("Algorithm.CSharp/Benchmarks", entries1);
          ("Algorithm.Python/Benchmarks", entries2)]
    /\ NoDup (json_keys doc)
    /\ Forall (fun j => NoDup (json_keys j)) (json_values doc)
    /\ (forall j1 j2, json_values doc = [j1; j2] ->
        (forall name, In name (json_keys j1) <-> In name (discovery entries1))
        /\ (forall name, In name (json_keys j2) <-> In name (discovery entries2))).
Proof.
  intros H. apply run_script_facts in H as (evs & k & k' & Hf & [H|H]).
  - destruct H as (e & He & _). discriminate He.
  - destruct H as (_ & _ & _ & e1 & e2 & r1 & r2 & Htr & Hl & K1 & K2 & _).
    destruct Hf as [Fd _ _ _ _].
    exists (json_of_results [("CSharp", r1); ("Python", r2)]), e1, e2.
    split; [rewrite Htr; unfold persisted; rewrite dumps_app, Fd; reflexivity|].
    split; [rewrite Htr, listings_app, Hl; reflexivity|].
    unfold json_of_results.
    rewrite json_keys_of_dict, json_values_of_dict. cbn [map snd keys fst].
    split; [repeat constructor; cbn; intuition discriminate|].
    split.
    + constructor; [|constructor; [|constructor]];
        rewrite json_keys_of_dict, ?K1, ?K2;
        apply insert_keys_nodup; constructor.
    + intros j1 j2 Hj. injection Hj as <- <-.
      rewrite !json_keys_of_dict, K1, K2.
      split; intros name; rewrite insert_keys_incl; cbn [In]; tauto.
Qed.

Lemma written_table_has_no_duplicate_key_witness :
  exists doc entries1 entries2,
    persisted (st_trace (snd (run_script two_good_world))) = Some doc
    /\ listings (st_trace (snd (run_script two_good_world)))
       = [("Algorithm.CSharp/Benchmarks", entries1);
          ("Algorithm.Python/Benchmarks", entries2)]
    /\ NoDup (json_keys doc)
    /\ Forall (fun j => NoDup (json_keys j)) (json_values doc).
Proof.
  destruct (written_table_has_no_duplicate_key two_good_world
              (snd (run_script two_good_world)))
    as (doc & e1 & e2 & H1 & H2 & H3 & H4 & _).
  - vm_compute. reflexivity.
  - exists doc, e1, e2. auto.
Defined.

End DiscoveryAndTable.

Section LinesAndSamples.

Import Re.

Lemma readlines_nonempty s : Forall (fun l => l <> []) (readlines s).
Proof.
  induction s as [|c s IH]; [constructor|]. cbn [readlines].
  destruct (Ascii.eqb c newline).
  - constructor; [discriminate | exact IH].
  - destruct (readlines s) as [|l ls].
    + constructor; [discriminate | constructor].
    + constructor; [discriminate | exact (Forall_inv_tail IH)].
Qed.

Lemma removelast_cons {A : Type} (a : A) l :
  l <> [] -> removelast (a :: l) = a :: removelast l.
Proof. destruct l; [contradiction | reflexivity]. Qed.

Lemma readlines_inner s :
  Forall (fun l => ~ In newline (removelast l)) (readlines s).
Proof.
  induction s as [|c s IH]; [constructor|]. cbn [readlines].
  destruct (Ascii.eqb_spec c newline) as [->|Hc].
  - constructor; [cbn; tauto | exact IH].
  - pose proof (readlines_nonempty s) as Hn.
    destruct (readlines s) as [|l ls].
    + constructor; [cbn; tauto | constructor].
    + constructor; [|exact (Forall_inv_tail IH)].
      rewrite removelast_cons by exact (Forall_inv Hn).
      intros [H|H]; [congruence | exact (Forall_inv IH H)].
Qed.

Lemma readlines_terminated s :
  Forall (fun l => last l newline = newline) (removelast (readlines s)).
Proof.
  induction s as [|c s IH]; [constructor|]. cbn [readlines].
  destruct (Ascii.eqb_spec c newline) as [->|Hc].
  - destruct (readlines s) as [|l ls] eqn:E; [constructor|].
    rewrite removelast_cons by discriminate. constructor; [reflexivity | exact IH].
  - pose proof (readlines_nonempty s) as Hn.
    destruct (readlines s) as [|l ls]; [constructor|].
    destruct ls as [|l' ls]; [constructor|].
    rewrite removelast_cons in IH |- * by discriminate.
    constructor; [|exact (Forall_inv_tail IH)].
    pose proof (Forall_inv IH) as Hl. pose proof (Forall_inv Hn) as Hne.
    destruct l as [|x l]; [contradiction | exact Hl].
Qed.

(** X12.  Iterating over the file loses nothing and cuts only behind a
    line terminator: the lines put together are the text, no line is
    empty, a terminator is found only as the last character of a line,
    and every line but the last ends with one. *)
Theorem readlines_cuts_behind_terminators (s : text) :
  List.concat (readlines s) = s
  /\ Forall (fun l => l <> []) (readlines s)
  /\ Forall (fun l => ~ In newline (removelast l)) (readlines s)
  /\ Forall (fun l => last l newline = newline) (removelast (readlines s)).
Proof.
  split; [apply concat_readlines|].
  split; [apply readlines_nonempty|].
  split; [apply readlines_inner | apply readlines_terminated].
Qed.

Lemma list_ascii_of_string_append a b :
  list_ascii_of_string (a ++ b)
  = list_ascii_of_string a ++ list_ascii_of_string b.
Proof. induction a as [|c a IH]; cbn; [reflexivity | now rewrite IH]. Qed.

Lemma readlines_snoc_nonempty x : readlines (x ++ [newline]) <> [].
Proof.
  pose proof (concat_readlines (x ++ [newline])) as H.
  intros E. rewrite E in H. cbn in H. now destruct x.
Qed.

Lemma readlines_app_terminated x t :
  readlines ((x ++ [newline]) ++ t)
  = readlines (x ++ [newline]) ++ readlines t.
Proof.
  induction x as [|c x IH]; [reflexivity|].
  cbn [app readlines]. destruct (Ascii.eqb c newline).
  - cbn [app] in IH. now rewrite IH.
  - cbn [app] in IH. rewrite IH.
    pose proof (readlines_snoc_nonempty x) as Hn.
    destruct (readlines (x ++ [newline])) as [|l ls]; [contradiction|].
    reflexivity.
Qed.

(** X13.  Scraping only ever extends the two accumulators, and scraping
    a text that ends with a line terminator and then a second text is
    scraping the two texts put together: samples of repeated readings add
    up in order. *)
Theorem scraping_accumulates :
  (forall a b content,
      scrape_file (a, b) content
      = (a ++ fst (scrape_file ([], []) content),
         b ++ snd (scrape_file ([], []) content)))
  /\ (forall acc content1 content2,
        scrape_file (scrape_file acc (line content1)) content2
        = scrape_file acc (line content1 ++ content2))
  /\ (forall acc, scrape_file acc "" = acc).
Proof.
  split; [|split].
  - intros a b content. unfold scrape_file. now rewrite !scrape_lines.
  - intros acc content1 content2. unfold scrape_file, line.
    rewrite !list_ascii_of_string_append.
    change (list_ascii_of_string (String newline "")) with [newline].
    now rewrite readlines_app_terminated, fold_left_app.
  - reflexivity.
Qed.

Lemma int_from ds : forall acc,
  fold_left (fun acc c => (10 * acc + digit_value c)%Z) ds acc
  = (acc * 10 ^ Z.of_nat (List.length ds) + int ds)%Z.
Proof.
  unfold int. induction ds as [|d ds IH]; intros acc.
  - cbn. lia.
  - cbn [fold_left List.length]. rewrite IH, (IH (10 * 0 + digit_value d)%Z).
    rewrite Nat2Z.inj_succ, Z.pow_succ_r by lia. ring.
Qed.

Lemma digit_value_bounds d :
  (0 <= digit_value d)%Z /\ (is_digit d = true -> (digit_value d <= 9)%Z).
Proof.
  unfold digit_value, is_digit. split; [lia|].
  intros H. apply andb_prop in H as [H1 H2].
  apply Nat.leb_le in H1. apply Nat.leb_le in H2. lia.
Qed.

Lemma fold_digits_nonneg ds : forall acc,
  (0 <= acc)%Z ->
  (0 <= fold_left (fun acc c => (10 * acc + digit_value c)%Z) ds acc)%Z.
Proof.
  induction ds as [|d ds IH]; intros acc Ha; [exact Ha|].
  cbn [fold_left]. apply IH. pose proof (proj1 (digit_value_bounds d)). lia.
Qed.

Lemma int_nonneg ds : (0 <= int ds)%Z.
Proof. apply fold_digits_nonneg. lia. Qed.

Lemma int_below ds :
  forallb is_digit ds = true -> (int ds < 10 ^ Z.of_nat (List.length ds))%Z.
Proof.
  induction ds as [|d ds IH] using rev_ind; intros H; [cbn; lia|].
  rewrite forallb_app in H. apply andb_prop in H as [Hds Hd].
  cbn [forallb] in Hd. rewrite andb_true_r in Hd.
  unfold int. rewrite fold_left_app. cbn [fold_left]. fold (int ds).
  rewrite length_app. cbn [List.length].
  replace (Z.of_nat (List.length ds + 1)) with (Z.succ (Z.of_nat (List.length ds)))
    by lia.
  rewrite Z.pow_succ_r by lia.
  pose proof (IH Hds). pose proof (proj2 (digit_value_bounds d) Hd). lia.
Qed.

(** X14.  [int] reads a run of digits as a decimal number: a further
    digit multiplies by ten and adds, leading zeros do not count, and a
    run of n digits is a number from 0 to 10^n - 1. *)
Theorem int_reads_decimal :
  (forall ds d, int (ds ++ [d]) = (10 * int ds + digit_value d)%Z)
  /\ (forall ds, int ("0"%char :: ds) = int ds)
  /\ (forall ds,
        forallb is_digit ds = true ->
        (0 <= int ds < 10 ^ Z.of_nat (List.length ds))%Z).
Proof.
  split; [|split].
  - intros ds d. unfold int. now rewrite fold_left_app.
  - intros ds. reflexivity.
  - intros ds H. split; [apply int_nonneg | now apply int_below].
Qed.

Lemma int_reads_decimal_witness :
  (0 <= int (list_ascii_of_string "0042") < 10 ^ Z.of_nat 4)%Z.
Proof.
  apply (proj2 (proj2 int_reads_decimal) (list_ascii_of_string "0042")).
  reflexivity.
Defined.

Lemma sum_bounds (S : list Z) lo hi :
  Forall (fun x => (lo <= x <= hi)%Z) S ->
  (lo * Z.of_nat (List.length S) <= fold_right Z.add 0 S
   <= hi * Z.of_nat (List.length S))%Z.
Proof.
  induction 1 as [|x S Hx _ IH]; [cbn; lia|].
  cbn [fold_right List.length]. rewrite Nat2Z.inj_succ. lia.
Qed.

Lemma mean_bounds (S : list Z) lo hi :
  S <> [] ->
  Forall (fun x => (lo <= x <= hi)%Z) S ->
  exists v, Statistics.mean S = Ok v
    /\ Qle (inject_Z lo) (number_value v)
    /\ Qle (number_value v) (inject_Z hi).
Proof.
  intros Hne HS. rewrite (mean_nonempty S Hne). eexists.
  split; [reflexivity|]. rewrite convert_value.
  pose proof (sum_bounds S lo hi HS) as Hb.
  assert (Hp : Z.pos (Pos.of_nat (List.length S)) = Z.of_nat (List.length S))
    by (destruct S; [contradiction | cbn [List.length]; lia]).
  unfold Qle, inject_Z. cbn [Qnum Qden]. rewrite Hp. lia.
Qed.



Lemma scraped_nonneg content :
  Forall (fun z => (0 <= z)%Z) (fst (scrape_file ([], []) content))
  /\ Forall (fun z => (0 <= z)%Z) (snd (scrape_file ([], []) content)).
Proof.
  unfold scrape_file. rewrite scrape_lines. cbn [fst snd app].
  split; rewrite Forall_forall; intros z Hz;
    apply in_flat_map in Hz as (l & _ & Hz);
    apply in_map_iff in Hz as (ds & <- & _); apply int_nonneg.
Qed.

(** X16.  No sample is negative and no recorded average is: the groups
    the patterns capture hold digits only, so every entry the script
    records has samples from 0 upwards and both averages at least 0. *)
Theorem recorded_metrics_are_not_negative
    (w : World) dataPath baseDirectory lang rpl f st rpl' st' :
  run_algorithm w dataPath baseDirectory lang rpl f st = (Ok rpl', st') ->
  exists m,
    dict_get rpl' (PyStr.stem f) = Some m
    /\ Forall (fun z => (0 <= z)%Z) (samples m)
    /\ Qle 0 (number_value (average_dps m))
    /\ Qle 0 (number_value (average_length m)).
Proof.
  rewrite run_algorithm_unfold. cbv zeta.
  destruct (engine w _ (st_fs st)) as [fs'|]; [|discriminate].
  destruct (dict_get (fs_files fs') _) as [content|]; [|discriminate].
  intros H. injection H as H _.
  apply aggregate_ok in H as (Hd & Hl & a & l & Ha & Hl' & ->).
  destruct (scraped_nonneg content) as [N1 N2].
  eexists. split; [apply dict_get_set_same|]. cbn [samples average_dps average_length].
  split; [exact N1|].
  assert (B : forall S v, S <> [] -> Forall (fun z => (0 <= z)%Z) S ->
              Statistics.mean S = Ok v -> Qle 0 (number_value v)).
  { intros S v Hne HS Hv.
    assert (HS' : Forall (fun x => (0 <= x <= Z.max 0 (fold_right Z.max 0 S))%Z) S).
    { clear Hv Hne. induction HS as [|x S Hx HS IH]; [constructor|].
      constructor; [cbn [fold_right]; lia|].
      eapply Forall_impl; [|exact IH]. cbn [fold_right]. intros y Hy. lia. }
    destruct (mean_bounds S 0 _ Hne HS') as (v' & Hv' & Hlo & _).
    rewrite Hv in Hv'. injection Hv' as <-. exact Hlo. }
  split; [exact (B _ _ Hd N1 Ha) | exact (B _ _ Hl N2 Hl')].
Qed.

Lemma recorded_metrics_are_not_negative_witness :
  exists m,
    dict_get (match fst (run_algorithm two_good_world "../../../Data"
                           "Algorithm.CSharp/Benchmarks" "CSharp" []
                           "Alpha.cs" (initial_state two_good_world))
              with Ok rpl' => rpl' | Raise _ => [] end) "Alpha" = Some m
    /\ Forall (fun z => (0 <= z)%Z) (samples m).
Proof.
  destruct (run_algorithm two_good_world "../../../Data"
              "Algorithm.CSharp/Benchmarks" "CSharp" [] "Alpha.cs"
              (initial_state two_good_world)) as [[rpl'|e] st'] eqn:E.
  - destruct (recorded_metrics_are_not_negative _ _ _ _ _ _ _ _ _ E)
      as (m & H1 & H2 & _).
    exists m. split; [exact H1 | exact H2].
  - vm_compute in E. discriminate E.
Defined.

Lemma sum_permutation (S S' : list Z) :
  Permutation S S' -> fold_right Z.add 0%Z S = fold_right Z.add 0%Z S'.
Proof.
  induction 1 as [|x l l' _ IH|x y l|l l' l'' _ IH1 _ IH2];
    cbn [fold_right]; lia.
Qed.

Lemma mean_unfold (S : list Z) :
  Statistics.mean S
  = if (List.length S <? 1)%nat then Raise StatisticsError
    else Ok (Statistics.convert
               (Qred (fold_right Z.add 0%Z S # Pos.of_nat (List.length S)))).
Proof.
  unfold Statistics.mean, Statistics.sum_exact. rewrite sum_exact_spec.
  reflexivity.
Qed.

(** X17.  The average does not depend on the order of the samples. *)
Theorem mean_ignores_the_order_of_samples (S S' : list Z) :
  Permutation S S' -> Statistics.mean S = Statistics.mean S'.
Proof.
  intros Hp. rewrite !mean_unfold.
  now rewrite (sum_permutation _ _ Hp), (Permutation_length Hp).
Qed.

Lemma mean_ignores_the_order_of_samples_witness :
  Statistics.mean [1%Z; 2%Z; 4%Z] = Statistics.mean [2%Z; 1%Z; 4%Z].
Proof. apply mean_ignores_the_order_of_samples. apply perm_swap. Defined.



End LinesAndSamples.

Section EngineAndLog.

(** X19.  What is recorded for an algorithm depends only on the text of
    its log after the engine call and on the table so far: the exit
    status of the engine, the data path, the language and the directory
    have no part in it, and a log left over from an earlier run counts
    like a fresh one. *)
Theorem entry_depends_only_on_the_log_text
    (w1 w2 : World) dataPath1 dataPath2 baseDirectory1 baseDirectory2
    lang1 lang2 rpl f1 f2 st1 st2 fs1 fs2 content :
  PyStr.stem f1 = PyStr.stem f2 ->
  engine w1 (engine_invocation dataPath1 lang1 (PyStr.stem f1)
               (algorithm_location baseDirectory1 lang1 f1)) (st_fs st1)
  = Some fs1 ->
  engine w2 (engine_invocation dataPath2 lang2 (PyStr.stem f2)
               (algorithm_location baseDirectory2 lang2 f2)) (st_fs st2)
  = Some fs2 ->
  dict_get (fs_files fs1) (algorithm_log (PyStr.stem f1)) = Some content ->
  dict_get (fs_files fs2) (algorithm_log (PyStr.stem f2)) = Some content ->
  fst (run_algorithm w1 dataPath1 baseDirectory1 lang1 rpl f1 st1)
  = fst (run_algorithm w2 dataPath2 baseDirectory2 lang2 rpl f2 st2).
Proof.
  intros Hs E1 E2 L1 L2.
  rewrite (run_algorithm_result _ _ _ _ _ _ _ _ _ E1 L1).
  rewrite (run_algorithm_result _ _ _ _ _ _ _ _ _ E2 L2).
  now rewrite Hs.
Qed.

Lemma entry_depends_only_on_the_log_text_witness :
  fst (run_algorithm two_good_world "../../../Data"
         "Algorithm.CSharp/Benchmarks" "CSharp" [] "Alpha.cs"
         (initial_state two_good_world))
  = fst (run_algorithm silent_engine_world "/data"
           "Algorithm.Python/Benchmarks" "Python" [] "Alpha.py"
           (MkState (MkFS [] [("./Launcher/bin/Release/Alpha-log.txt",
                               alpha_log)]) None [])).
Proof.
  apply (entry_depends_only_on_the_log_text two_good_world silent_engine_world
           _ _ _ _ _ _ _ _ _ _ _
           (MkFS (fs_dirs alpha_beta_fs)
              [("./Launcher/bin/Release/Alpha-log.txt", alpha_log)])
           (MkFS [] [("./Launcher/bin/Release/Alpha-log.txt", alpha_log)])
           alpha_log); reflexivity.
Defined.

Lemma replay_engine_snoc w fs calls i :
  replay_engine w fs (calls ++ [i])
  = match engine w i (replay_engine w fs calls) with
    | Some fs' => fs'
    | None => replay_engine w fs calls
    end.
Proof. unfold replay_engine. now rewrite fold_left_app. Qed.

Lemma only_engine_writes_quiet w st evs st' :
  only_engine_writes w st ->
  st_trace st' = st_trace st ++ evs ->
  invocations evs = [] ->
  st_fs st' = st_fs st ->
  only_engine_writes w st'.
Proof.
  unfold only_engine_writes. intros H Htr Hi Hfs.
  now rewrite Hfs, Htr, invocations_app, Hi, app_nil_r.
Qed.

Lemma run_algorithm_only_engine_writes w dataPath baseDirectory lang rpl f :
  keeps (only_engine_writes w) (fun _ => True)
    (run_algorithm w dataPath baseDirectory lang rpl f).
Proof.
  intros st r st' HP. rewrite run_algorithm_unfold. cbv zeta.
  set (i := engine_invocation dataPath lang (PyStr.stem f)
              (algorithm_location baseDirectory lang f)).
  unfold only_engine_writes in *.
  destruct (engine w i (st_fs st)) as [fs'|] eqn:Ee.
  2:{ intros H; injection H as <- <-. split; [|auto]. cbn [st_fs st_trace].
      rewrite invocations_app. cbn [invocations flat_map app].
      rewrite replay_engine_snoc, <- HP, Ee. reflexivity. }
  assert (Hfs : fs' = replay_engine w (initial_fs w)
                        (invocations (st_trace st ++ [EvRun i]))).
  { rewrite invocations_app. cbn [invocations flat_map app].
    rewrite replay_engine_snoc, <- HP, Ee. reflexivity. }
  destruct (dict_get (fs_files fs') (algorithm_log (PyStr.stem f)))
    as [content|].
  - intros H; injection H as _ <-. split; [|auto]. cbn [st_fs st_trace].
    destruct (open_events_facts (st_file st) (algorithm_log (PyStr.stem f)))
      as (Oi & _).
    now rewrite invocations_app, Oi, app_nil_r.
  - intros H; injection H as _ <-. split; [|auto]. exact Hfs.
Qed.

Lemma benchmark_all_only_engine_writes w :
  keeps (only_engine_writes w) (fun _ => True) (benchmark_all w).
Proof.
  unfold benchmark_all. apply keeps_for_each. intros results baseDirectory _.
  unfold run_language.
  apply keeps_bind; [apply keeps_lift; auto|]. intros lang.
  apply keeps_bind.
  - intros st r st' HP. unfold listdir.
    destruct (dict_get (fs_dirs (st_fs st)) baseDirectory) as [entries|];
      intros H; injection H as <- <-; (split; [|auto]); [|exact HP].
    now apply (only_engine_writes_quiet w st [EvListdir baseDirectory entries]).
  - intros entries. apply keeps_bind; [|intros rpl; apply keeps_ret].
    apply keeps_for_each. intros rpl f _. unfold visit_file.
    destruct (is_algorithm_file f);
      [apply run_algorithm_only_engine_writes | apply keeps_ret].
Qed.

(** X20.  Between the engine calls the script only reads: whatever way
    the loops end, the files are as the engine calls made so far, taken
    one after the other from the initial file system, have left them. *)
Theorem only_the_engine_changes_the_files (w : World) r st' :
  benchmark_all w (initial_state w) = (r, st') ->
  st_fs st'
  = fold_left (fun fs i => match engine w i fs with
                           | Some fs' => fs'
                           | None => fs
                           end)
      (invocations (st_trace st')) (initial_fs w).
Proof.
  intros H.
  assert (H0 : only_engine_writes w (initial_state w)) by reflexivity.
  exact (proj1 (benchmark_all_only_engine_writes w _ _ _ H0 H)).
Qed.

Lemma only_the_engine_changes_the_files_witness :
  st_fs (snd (benchmark_all two_good_world (initial_state two_good_world)))
  = fold_left (fun fs i => match engine two_good_world i fs with
                           | Some fs' => fs'
                           | None => fs
                           end)
      (invocations
         (st_trace (snd (benchmark_all two_good_world
                           (initial_state two_good_world)))))
      (initial_fs two_good_world).
Proof.
  exact (only_the_engine_changes_the_files two_good_world _ _
           (surjective_pairing _)).
Defined.

End EngineAndLog.
